(** * Provar AI test-case generator: the request/response pipeline of [app.py]

    A shallow embedding of the three pipeline functions
    ([analyze_screenshot_with_ai], [generate_provar_test],
    [validate_provar_test]) and of the handler of the "Generate" button,
    followed by the properties of the specification that concern them. *)

From Stdlib Require Import List Bool Arith NArith ZArith Lia.
From Stdlib Require Import Ascii String DecimalString DecimalNat.
From Stdlib Require DecimalFacts.
Import ListNotations.

Set Warnings "-register-all".
Open Scope bool_scope.

(** ** Python strings

    A Python [str] is a sequence of Unicode code points.  Code points are
    numbers in [N]; a literal of the source is written with [py], which maps
    every character of an ASCII literal to its code point. *)

Definition str := list N.

Definition py (s : string) : str := map N_of_ascii (list_ascii_of_string s).
Arguments py s%_string_scope.

Module Str.

(** [s.startswith(p)] *)
Fixpoint startswith (p s : str) : bool :=
  match p, s with
  | [], _ => true
  | _ :: _, [] => false
  | a :: p', b :: s' => N.eqb a b && startswith p' s'
  end.

(** [p in s] *)
Fixpoint contains (p s : str) : bool :=
  match s with
  | [] => startswith p []
  | _ :: s' => startswith p s || contains p s'
  end.

(** The number of positions of [s] at which [p] occurs (occurrences may
    overlap). *)
Fixpoint occurrences (p s : str) : nat :=
  match s with
  | [] => 0
  | _ :: s' => (if startswith p s then 1 else 0) + occurrences p s'
  end.

(** [re.findall(p, s)] for a literal, non-empty pattern [p]: the scan goes
    left to right and resumes after the end of each match, so the matches
    do not overlap.  [skip] is the number of characters still covered by
    the last match. *)
Fixpoint findall_from (p : str) (skip : nat) (s : str) : list str :=
  match s with
  | [] => []
  | _ :: s' =>
      match skip with
      | S k => findall_from p k s'
      | O =>
          if startswith p s
          then p :: findall_from p (pred (List.length p)) s'
          else findall_from p 0 s'
      end
  end.

Definition findall (p s : str) : list str := findall_from p 0 s.

(** [str.isspace] on one code point (CPython's [_PyUnicode_IsWhitespace]). *)
Definition isspace (c : N) : bool :=
  ((9 <=? c) && (c <=? 13) || (28 <=? c) && (c <=? 32)
   || (c =? 133) || (c =? 160) || (c =? 5760)
   || (8192 <=? c) && (c <=? 8202)
   || (c =? 8232) || (c =? 8233) || (c =? 8239) || (c =? 8287)
   || (c =? 12288))%N.

Fixpoint lstrip (s : str) : str :=
  match s with
  | [] => []
  | c :: s' => if isspace c then lstrip s' else s
  end.

Definition rstrip (s : str) : str := rev (lstrip (rev s)).

(** [s.strip()] *)
Definition strip (s : str) : str := rstrip (lstrip s).

(** [str(n)] for a non-negative integer. *)
Definition of_nat (n : nat) : str := py (NilZero.string_of_uint (Nat.to_uint n)).

End Str.

(** ** Document Validator: [validate_provar_test] *)

Record validation := mk_validation {
  is_valid : bool;
  errors : list str;
  warnings : list str;
  info : list str
}.

Definition add_error (m : str) (v : validation) : validation :=
  mk_validation (is_valid v) (errors v ++ [m]) (warnings v) (info v).

Definition add_warning (m : str) (v : validation) : validation :=
  mk_validation (is_valid v) (errors v) (warnings v ++ [m]) (info v).

Definition add_info (m : str) (v : validation) : validation :=
  mk_validation (is_valid v) (errors v) (warnings v) (info v ++ [m]).

Definition set_invalid (v : validation) : validation :=
  mk_validation false (errors v) (warnings v) (info v).

(** The check mark U+2713 that opens every info message. *)
Definition check_mark : N := 10003.

Definition msg_missing_declaration : str := py "Missing XML declaration".
Definition msg_missing_root : str := py "Missing <testCase> root element".
Definition msg_missing_summary : str := py "Missing <summary> element".
Definition msg_missing_steps : str := py "Missing <steps> element".
Definition msg_no_sf_actions : str :=
  py "No Salesforce-specific actions found. Generic actions may not work in Provar.".
Definition msg_sf_actions : str :=
  check_mark :: py " Contains Salesforce-specific Provar actions".
Definition msg_no_locators : str := py "No element locators found".
Definition msg_locators : str := check_mark :: py " Contains element locators".
Definition msg_step_count (n : nat) : str :=
  check_mark :: py " Contains " ++ Str.of_nat n ++ py " test steps".
Definition msg_waits : str := check_mark :: py " Includes wait conditions".
Definition msg_assertions : str :=
  check_mark :: py " Includes verification/assertions".

Definition sf_actions : list str :=
  [py "SfNavigate"; py "SfClick"; py "SfEnterText"; py "SfVerify";
   py "SfLogin"; py "SfWait"; py "SfSelect"].

Definition validate_provar_test (xml_content : str) : validation :=
  let validation := mk_validation true [] [] [] in
  (* Check XML structure *)
  let validation :=
    if negb (Str.startswith (py "<?xml") xml_content)
    then add_warning msg_missing_declaration validation
    else validation in
  (* Required elements *)
  let validation :=
    if negb (Str.contains (py "<testCase") xml_content)
    then set_invalid (add_error msg_missing_root validation)
    else validation in
  let validation :=
    if negb (Str.contains (py "<summary>") xml_content)
    then add_warning msg_missing_summary validation
    else validation in
  let validation :=
    if negb (Str.contains (py "<steps>") xml_content)
    then set_invalid (add_error msg_missing_steps validation)
    else validation in
  (* Salesforce-specific actions *)
  let has_sf_actions :=
    existsb (fun action => Str.contains action xml_content) sf_actions in
  let validation :=
    if negb has_sf_actions
    then add_warning msg_no_sf_actions validation
    else add_info msg_sf_actions validation in
  (* Check for locators *)
  let validation :=
    if negb (Str.contains (py "<locator") xml_content)
    then add_warning msg_no_locators validation
    else add_info msg_locators validation in
  (* Count steps *)
  let step_matches := Str.findall (py "<step") xml_content in
  let validation :=
    match step_matches with
    | [] => validation
    | _ :: _ => add_info (msg_step_count (List.length step_matches)) validation
    end in
  (* Check for waits *)
  let validation :=
    if Str.contains (py "SfWait") xml_content
       || Str.contains (py "waitForPageLoad") xml_content
    then add_info msg_waits validation
    else validation in
  (* Check for assertions *)
  let validation :=
    if Str.contains (py "SfVerify") xml_content
       || Str.contains (py "Assert") xml_content
    then add_info msg_assertions validation
    else validation in
  validation.

(** ** The regular expressions of the two extractors

    Each pattern of the source is a literal, a run of arbitrary characters
    ([[\s\S]] matches every character) and a literal; [re.search] returns
    the match that starts leftmost. *)

Module Re.

(** The lazy run [[\s\S]*?] followed by the literal [closer]: the shortest
    prefix of [s] after which [closer] occurs. *)
Fixpoint lazy_until (closer s : str) : option str :=
  match s with
  | [] => if Str.startswith closer [] then Some [] else None
  | c :: s' =>
      if Str.startswith closer s then Some []
      else option_map (cons c) (lazy_until closer s')
  end.

(** [re.search(opener ([\s\S]*?) closer, s)], giving [group(1)]: the
    leftmost position where [opener] occurs and [closer] follows later. *)
Fixpoint search_fenced (opener closer s : str) : option str :=
  match s with
  | [] => None
  | _ :: s' =>
      if Str.startswith opener s then
        match lazy_until closer (skipn (List.length opener) s) with
        | Some group1 => Some group1
        | None => search_fenced opener closer s'
        end
      else search_fenced opener closer s'
  end.

(** The greedy run [[\s\S]*] followed by the one-character literal [c]:
    the longest prefix of [s] that ends with [c]. *)
Fixpoint greedy_through (c : N) (s : str) : option str :=
  match s with
  | [] => None
  | a :: s' =>
      match greedy_through c s' with
      | Some g => Some (a :: g)
      | None => if N.eqb a c then Some [a] else None
      end
  end.

(** [re.search(r'\[[\s\S]*\]', s)], giving [group(0)]. *)
Fixpoint search_brackets (s : str) : option str :=
  match s with
  | [] => None
  | a :: s' =>
      if N.eqb a 91 then
        match greedy_through 93 s' with
        | Some g => Some (a :: g)
        | None => search_brackets s'
        end
      else search_brackets s'
  end.

End Re.

(** ** Document Extractor: lines 315-325 of [generate_provar_test] *)

Definition LF : N := 10.

Definition fence : str := py "```".
Definition fence_xml_open : str := py "```xml" ++ [LF].
Definition fence_open : str := fence ++ [LF].
Definition fence_close : str := LF :: fence.

Definition document_extractor (xml_content : str) : str :=
  let xml_content :=
    match Re.search_fenced fence_xml_open fence_close xml_content with
    | Some group1 => group1
    | None =>
        match Re.search_fenced fence_open fence_close xml_content with
        | Some group1 => group1
        | None => xml_content
        end
    end in
  Str.strip xml_content.

(** ** JSON values and [json.loads]

    The values that [json.loads] builds: [None], [bool], [int], [float],
    [str], [list] and [dict].  A [float] is kept as the text it was read
    from, so that no floating-point arithmetic is involved; a [dict] is the
    list of its items in insertion order. *)

Inductive json : Type :=
| JNull
| JBool (b : bool)
| JInt (z : Z)
| JFloat (lexeme : str)
| JString (s : str)
| JArray (items : list json)
| JObject (members : list (str * json)).

Module Json.

(** [a == b] on strings. *)
Fixpoint str_eqb (a b : str) : bool :=
  match a, b with
  | [], [] => true
  | x :: a', y :: b' => N.eqb x y && str_eqb a' b'
  | _, _ => false
  end.

(** [d[k] = v] on the items of a [dict]: a key that is present keeps its
    place and takes the new value. *)
Fixpoint dict_set (k : str) (v : json) (m : list (str * json))
  : list (str * json) :=
  match m with
  | [] => [(k, v)]
  | (k', v') :: m' =>
      if str_eqb k k' then (k, v) :: m' else (k', v') :: dict_set k v m'
  end.

Fixpoint dict_get (k : str) (m : list (str * json)) : option json :=
  match m with
  | [] => None
  | (k', v) :: m' => if str_eqb k k' then Some v else dict_get k m'
  end.

(** The decoder's whitespace: space, tab, line feed, carriage return. *)
Definition is_ws (c : N) : bool :=
  (N.eqb c 32 || N.eqb c 9 || N.eqb c 10 || N.eqb c 13)%bool.

Fixpoint skip_ws (s : str) : str :=
  match s with
  | [] => []
  | c :: s' => if is_ws c then skip_ws s' else s
  end.

Definition is_digit (c : N) : bool := ((48 <=? c) && (c <=? 57))%N.

Definition hex_value (c : N) : option N :=
  if is_digit c then Some (c - 48)%N
  else if ((97 <=? c) && (c <=? 102))%N then Some (c - 87)%N
  else if ((65 <=? c) && (c <=? 70))%N then Some (c - 55)%N
  else None.

Definition hex4 (a b c d : N) : option N :=
  match hex_value a, hex_value b, hex_value c, hex_value d with
  | Some a, Some b, Some c, Some d =>
      Some (((a * 16 + b) * 16 + c) * 16 + d)%N
  | _, _, _, _ => None
  end.

(** The one-character escapes after a backslash. *)
Definition backslash (c : N) : option N :=
  if N.eqb c 34 then Some 34%N          (* quotation mark *)
  else if N.eqb c 92 then Some 92%N     (* backslash *)
  else if N.eqb c 47 then Some 47%N     (* solidus *)
  else if N.eqb c 98 then Some 8%N      (* b: backspace *)
  else if N.eqb c 102 then Some 12%N    (* f: form feed *)
  else if N.eqb c 110 then Some 10%N    (* n: line feed *)
  else if N.eqb c 114 then Some 13%N    (* r: carriage return *)
  else if N.eqb c 116 then Some 9%N     (* t: tab *)
  else None.

Definition is_high_surrogate (u : N) : bool :=
  ((55296 <=? u) && (u <=? 56319))%N.
Definition is_low_surrogate (u : N) : bool :=
  ((56320 <=? u) && (u <=? 57343))%N.
Definition join_surrogates (hi lo : N) : N :=
  (65536 + ((hi - 55296) * 1024 + (lo - 56320)))%N.

(** [c] put in front of the text that the rest of the scan decodes. *)
Definition push (c : N) (rest : option (str * str)) : option (str * str) :=
  match rest with
  | Some (t, r) => Some (c :: t, r)
  | None => None
  end.

(** [scanstring] in strict mode, from the character after the opening
    quote: the decoded text and what follows the closing quote.  A [\u]
    escape takes four hexadecimal digits; a high surrogate followed by an
    escaped low surrogate is joined with it into one code point. *)
Fixpoint scanstring (s : str) : option (str * str) :=
  match s with
  | [] => None
  | c :: r =>
      if N.eqb c 34 then Some ([], r)
      else if N.eqb c 92 then
        match r with
        | [] => None
        | e :: r1 =>
            if N.eqb e 117 then
              match r1 with
              | a :: b :: c' :: d :: r2 =>
                  match hex4 a b c' d with
                  | None => None
                  | Some uni =>
                      match r2 with
                      | x :: y :: a2 :: b2 :: c2 :: d2 :: r3 =>
                          if is_high_surrogate uni && N.eqb x 92 && N.eqb y 117
                          then
                            match hex4 a2 b2 c2 d2 with
                            | None => None
                            | Some uni2 =>
                                if is_low_surrogate uni2
                                then push (join_surrogates uni uni2)
                                          (scanstring r3)
                                else push uni (scanstring r2)
                            end
                          else push uni (scanstring r2)
                      | _ => push uni (scanstring r2)
                      end
                  end
              | _ => None
              end
            else
              match backslash e with
              | Some c' => push c' (scanstring r1)
              | None => None
              end
        end
      else if (c <=? 31)%N then None
      else push c (scanstring r)
  end.

Fixpoint span_digits (s : str) : str * str :=
  match s with
  | [] => ([], [])
  | c :: s' =>
      if is_digit c
      then let (ds, r) := span_digits s' in (c :: ds, r)
      else ([], s)
  end.

Definition digits_value (ds : str) : Z :=
  fold_left (fun acc c => (acc * 10 + Z.of_N (c - 48))%Z) ds 0%Z.

(** The fraction, a dot and one or more digits, when present. *)
Definition match_frac (s : str) : str * str :=
  match s with
  | c :: d :: s' =>
      if N.eqb c 46 && is_digit d
      then let (ds, r) := span_digits s' in (c :: d :: ds, r)
      else ([], s)
  | _ => ([], s)
  end.

(** The exponent, e or E with an optional sign and one or more digits,
    when present. *)
Definition match_exp (s : str) : str * str :=
  match s with
  | e :: s1 =>
      if (N.eqb e 101 || N.eqb e 69)%bool then
        let (sign, s2) :=
          match s1 with
          | c :: s2 =>
              if (N.eqb c 43 || N.eqb c 45)%bool then ([c], s2) else ([], s1)
          | [] => ([], s1)
          end in
        match s2 with
        | d :: s3 =>
            if is_digit d
            then let (ds, r) := span_digits s3 in (e :: sign ++ d :: ds, r)
            else ([], s)
        | [] => ([], s)
        end
      else ([], s)
  | [] => ([], s)
  end.

(** A number: an optional minus sign, then either 0 or a digit 1-9 and
    further digits, then the optional fraction and exponent; an [int] when
    neither is present, a [float] otherwise. *)
Definition match_number (s : str) : option (json * str) :=
  let (sign, s1) :=
    match s with
    | c :: s1 => if N.eqb c 45 then ([c], s1) else ([], s)
    | [] => ([], s)
    end in
  let integer :=
    match s1 with
    | [] => None
    | c :: s2 =>
        if ((49 <=? c) && (c <=? 57))%N
        then let (ds, r) := span_digits s2 in Some (c :: ds, r)
        else if N.eqb c 48 then Some ([c], s2)
        else None
    end in
  match integer with
  | None => None
  | Some (digits, s2) =>
      let (frac, s3) := match_frac s2 in
      let (exp, s4) := match_exp s3 in
      match frac, exp with
      | [], [] =>
          Some (JInt (match sign with
                      | [] => digits_value digits
                      | _ => - digits_value digits
                      end)%Z, s4)
      | _, _ => Some (JFloat (sign ++ digits ++ frac ++ exp), s4)
      end
  end.

(** The result of a scanner: a value and the text after it. *)
Definition scanned : Type := option (json * str).

(** [scan_once] on the first character of a value.  As in the decoder, the
    array and object scanners are handed to it (and it to them). *)
Definition scan_once_body
    (parse_items : str -> list json -> scanned)
    (parse_members : str -> list (str * json) -> scanned)
    (s : str) : scanned :=
  match s with
  | [] => None
  | c :: r =>
      if N.eqb c 34 then
        match scanstring r with
        | Some (t, r') => Some (JString t, r')
        | None => None
        end
      else if N.eqb c 123 then
        match skip_ws r with
        | c' :: r' =>
            if N.eqb c' 125 then Some (JObject [], r')
            else parse_members (c' :: r') []
        | [] => None
        end
      else if N.eqb c 91 then
        match skip_ws r with
        | c' :: r' =>
            if N.eqb c' 93 then Some (JArray [], r')
            else parse_items (c' :: r') []
        | [] => None
        end
      else if Str.startswith (py "null") s then Some (JNull, skipn 4 s)
      else if Str.startswith (py "true") s
      then Some (JBool true, skipn 4 s)
      else if Str.startswith (py "false") s
      then Some (JBool false, skipn 5 s)
      else if Str.startswith (py "NaN") s
      then Some (JFloat (py "NaN"), skipn 3 s)
      else if Str.startswith (py "Infinity") s
      then Some (JFloat (py "Infinity"), skipn 8 s)
      else if Str.startswith (py "-Infinity") s
      then Some (JFloat (py "-Infinity"), skipn 9 s)
      else match_number s
  end.

(** One turn of the loop of the array scanner, at the start of an item;
    [acc] holds the items read so far, last first. *)
Definition parse_items_body
    (scan_once : str -> scanned)
    (parse_items : str -> list json -> scanned)
    (s : str) (acc : list json) : scanned :=
  match scan_once s with
  | None => None
  | Some (v, r) =>
      match skip_ws r with
      | c :: r' =>
          if N.eqb c 93 then Some (JArray (rev (v :: acc)), r')
          else if N.eqb c 44
          then parse_items (skip_ws r') (v :: acc)
          else None
      | [] => None
      end
  end.

(** One turn of the loop of the object scanner, at the start of a key;
    [acc] holds the items of the [dict] built so far. *)
Definition parse_members_body
    (scan_once : str -> scanned)
    (parse_members : str -> list (str * json) -> scanned)
    (s : str) (acc : list (str * json)) : scanned :=
  match s with
  | c :: r =>
      if N.eqb c 34 then
        match scanstring r with
        | None => None
        | Some (key, r1) =>
            match skip_ws r1 with
            | c1 :: r2 =>
                if N.eqb c1 58 then
                  match scan_once (skip_ws r2) with
                  | None => None
                  | Some (v, r3) =>
                      let acc := dict_set key v acc in
                      match skip_ws r3 with
                      | c3 :: r4 =>
                          if N.eqb c3 125 then Some (JObject acc, r4)
                          else if N.eqb c3 44
                          then parse_members (skip_ws r4) acc
                          else None
                      | [] => None
                      end
                  end
                else None
            | [] => None
            end
        end
      else None
  | [] => None
  end.

(** The three scanners call each other; [fuel] bounds the number of nested
    calls.  [JsonFacts.fuel_enough] shows that the fuel given by [loads] is
    never used up. *)
Fixpoint scan_once (fuel : nat) : str -> scanned :=
  match fuel with
  | O => fun _ => None
  | S fuel =>
      scan_once_body (fun s acc => parse_items fuel s acc)
                     (fun s acc => parse_members fuel s acc)
  end

with parse_items (fuel : nat) : str -> list json -> scanned :=
  match fuel with
  | O => fun _ _ => None
  | S fuel =>
      parse_items_body (fun s => scan_once fuel s)
                       (fun s acc => parse_items fuel s acc)
  end

with parse_members (fuel : nat) : str -> list (str * json) -> scanned :=
  match fuel with
  | O => fun _ _ => None
  | S fuel =>
      parse_members_body (fun s => scan_once fuel s)
                         (fun s acc => parse_members fuel s acc)
  end.

(** [json.loads(s)]: one value, surrounded by optional whitespace and
    nothing else; [None] stands for [JSONDecodeError].  The limits of the
    interpreter (recursion depth, digits of an [int]) are not modelled. *)
Definition loads (s : str) : option json :=
  match scan_once (2 * List.length s + 2) (skip_ws s) with
  | Some (v, r) =>
      match skip_ws r with
      | [] => Some v
      | _ :: _ => None
      end
  | None => None
  end.

End Json.

(** ** The world around the pipeline

    The two functions post a request to the messages endpoint and show
    messages through streamlit; the button handler also reads and writes
    [st.session_state]. *)

(** The exceptions the pipeline can meet inside its [try] blocks; all of
    them derive from [Exception].  The text of [str(e)] is not modelled. *)
Inductive exn : Type :=
| RequestException (cause : str)   (* raised by [requests.post] *)
| JSONDecodeError
| KeyError
| IndexError
| TypeError.

(** What [requests.post] does: it raises, or returns a response. *)
Inductive http_outcome : Type :=
| TransportFailure (cause : str)
| Response (status_code : Z) (text : str).

(** A posted request.  The generation prompt is the f-string of lines
    217-295 over the values kept here (and the clock); its text plays no
    part in how the answer is handled. *)
Inductive request : Type :=
| VisionRequest (payload : json)
| GenerationRequest (test_name url description dom_html : str)
                    (detected_elements : list json).

(** The calls to streamlit made by the pipeline, one constructor per call
    site; the emoji that opens each message is left out of the comments. *)
Inductive ui_event : Type :=
| st_error_analysis_failed (e : exn)
    (* st.error(f"Screenshot analysis failed: {str(e)}") *)
| st_error_api (status_code : Z) (text : str)
    (* st.error(f"API Error: {response.status_code} - {response.text}") *)
| st_error_generation_failed (e : exn)
    (* st.error(f"Test generation failed: {str(e)}") *)
| st_error_missing_input
    (* st.error("Please provide Test Name and Description") *)
| st_error_no_test_case
    (* st.error("Failed to generate test case. Please try again.") *)
| st_info_analyzing
    (* st.info("Analyzing screenshots with Vision AI...") *)
| st_info_generating
    (* st.info("Generating Provar test case...") *)
| st_info_validating
    (* st.info("Validating test case...") *)
| st_success_generated
    (* st.success("Test case generated successfully!") *)
| st_balloons.

(** An uploaded screenshot as the session keeps it: the file name and the
    base64 text of its bytes (the decoded [image] is only displayed). *)
Record screenshot := mk_screenshot {
  name : str;
  data : str
}.

Record session_state := mk_session {
  generated_test : option str;
  detected_elements : list json;
  validation_results : option validation;
  screenshots : list screenshot
}.

Record world := mk_world {
  session : session_state;
  answers : nat -> http_outcome;  (* the endpoint's answer to the n-th post *)
  sent : list request;            (* the posts made so far, oldest first *)
  shown : list ui_event           (* the messages shown so far, oldest first *)
}.

(** State passing over [world]. *)
Definition M (A : Type) : Type := world -> A * world.

Definition ret {A} (a : A) : M A := fun w => (a, w).

Definition bind {A B} (m : M A) (k : A -> M B) : M B :=
  fun w => let (a, w') := m w in k a w'.

Declare Scope monad_scope.
Delimit Scope monad_scope with monad.
Notation "x <- m ;; k" := (bind m (fun x => k))
  (at level 61, m at next level, right associativity) : monad_scope.
Notation "m ;; k" := (bind m (fun _ => k))
  (at level 61, right associativity) : monad_scope.
Open Scope monad_scope.

Definition requests_post (r : request) : M http_outcome :=
  fun w =>
    (answers w (List.length (sent w)),
     mk_world (session w) (answers w) (sent w ++ [r]) (shown w)).

Definition show (e : ui_event) : M unit :=
  fun w => (tt, mk_world (session w) (answers w) (sent w) (shown w ++ [e])).

Definition get_session : M session_state := fun w => (session w, w).

Definition put_session (s : session_state) : M unit :=
  fun w => (tt, mk_world s (answers w) (sent w) (shown w)).

Definition set_generated_test (x : option str) : M unit :=
  s <- get_session ;;
  put_session (mk_session x (detected_elements s) (validation_results s)
                          (screenshots s)).

Definition set_validation_results (x : option validation) : M unit :=
  s <- get_session ;;
  put_session (mk_session (generated_test s) (detected_elements s) x
                          (screenshots s)).

(** [st.session_state.detected_elements.extend(elements)] *)
Definition extend_detected_elements (elements : list json) : M unit :=
  s <- get_session ;;
  put_session (mk_session (generated_test s) (detected_elements s ++ elements)
                          (validation_results s) (screenshots s)).

(** [for x in l: body(x)] *)
Fixpoint for_each {A} (l : list A) (body : A -> M unit) : M unit :=
  match l with
  | [] => ret tt
  | x :: l' => body x ;; for_each l' body
  end.

(** Computations that may raise, inside a [try] block. *)
Definition raise {A} (e : exn) : exn + A := inl e.

Definition try_bind {A B} (m : exn + A) (k : A -> exn + B) : exn + B :=
  match m with
  | inl e => inl e
  | inr a => k a
  end.

Notation "x <-? m ;; k" := (try_bind m (fun x => k))
  (at level 61, m at next level, right associativity) : monad_scope.

(** [v[k]] for a string key. *)
Definition getitem_key (v : json) (k : str) : exn + json :=
  match v with
  | JObject m =>
      match Json.dict_get k m with
      | Some x => inr x
      | None => raise KeyError
      end
  | _ => raise TypeError
  end.

(** [v[0]] *)
Definition getitem_0 (v : json) : exn + json :=
  match v with
  | JArray (x :: _) => inr x
  | JArray [] => raise IndexError
  | JString (c :: _) => inr (JString [c])
  | JString [] => raise IndexError
  | JObject _ => raise KeyError   (* the keys of a decoded object are strings *)
  | _ => raise TypeError
  end.

(** [response.json()] *)
Definition response_json (text : str) : exn + json :=
  match Json.loads text with
  | Some v => inr v
  | None => raise JSONDecodeError
  end.

(** [data['content'][0]['text']] *)
Definition content_text (data : json) : exn + json :=
  content <-? getitem_key data (py "content") ;;
  first <-? getitem_0 content ;;
  getitem_key first (py "text").

(** [re.search] accepts a [str] only. *)
Definition expect_str (v : json) : exn + str :=
  match v with
  | JString s => inr s
  | _ => raise TypeError
  end.

(** ** Vision Request Builder and Element Extractor:
       [analyze_screenshot_with_ai] *)

Definition quoted (s : string) : str := 34%N :: py s ++ [34%N].
Arguments quoted s%_string_scope.

(** [LF.join(ls)] *)
Fixpoint lines (ls : list str) : str :=
  match ls with
  | [] => []
  | [l] => l
  | l :: ls' => l ++ LF :: lines ls'
  end.

(** The instruction text of lines 161-179. *)
Definition vision_prompt : str :=
  lines
    [py "Analyze this Salesforce UI screenshot and identify all interactive elements.";
     [];
     py "Return ONLY a JSON array with this exact format (no other text):";
     py "[";
     py "  {";
     py "    " ++ quoted "type" ++ py ": "
       ++ quoted "input|button|dropdown|link|checkbox|textarea" ++ py ",";
     py "    " ++ quoted "label" ++ py ": "
       ++ quoted "visible text or placeholder" ++ py ",";
     py "    " ++ quoted "id" ++ py ": "
       ++ quoted "suggested element ID or name" ++ py ",";
     py "    " ++ quoted "xpath" ++ py ": "
       ++ quoted "suggested xpath locator" ++ py ",";
     py "    " ++ quoted "action" ++ py ": "
       ++ quoted "click|enterText|select|check";
     py "  }";
     py "]";
     [];
     py "Focus on:";
     py "- Input fields (text, email, password)";
     py "- Buttons (submit, cancel, save, etc.)";
     py "- Dropdowns/select boxes";
     py "- Checkboxes and radio buttons";
     py "- Links and navigation elements"].

(** The [json=] argument of the post of lines 142-185. *)
Definition vision_payload (image_data : str) : json :=
  JObject
    [(py "model", JString (py "claude-sonnet-4-20250514"));
     (py "max_tokens", JInt 1000);
     (py "messages",
      JArray
        [JObject
           [(py "role", JString (py "user"));
            (py "content",
             JArray
               [JObject
                  [(py "type", JString (py "image"));
                   (py "source",
                    JObject
                      [(py "type", JString (py "base64"));
                       (py "media_type", JString (py "image/jpeg"));
                       (py "data", JString image_data)])];
                JObject
                  [(py "type", JString (py "text"));
                   (py "text", JString vision_prompt)]])]])].

(** [payload['messages'][0]['content'][0]['source']['media_type']]: the
    encoding that the request declares for the attached image. *)
Definition attachment_media_type (payload : json) : exn + json :=
  messages <-? getitem_key payload (py "messages") ;;
  turn <-? getitem_0 messages ;;
  content <-? getitem_key turn (py "content") ;;
  image <-? getitem_0 content ;;
  source <-? getitem_key image (py "source") ;;
  getitem_key source (py "media_type").

(** Lines 192-198, on the text of the model's answer: the first bracketed
    span is decoded and returned; without a span the result is empty.  A
    span starts with an opening bracket, so what [json.loads] returns for it
    is a list ([loads_bracket_is_array] below); the branch for other values
    is never taken. *)
Definition element_extractor (content : str) : exn + list json :=
  match Re.search_brackets content with
  | Some group0 =>
      match Json.loads group0 with
      | Some (JArray elements) => inr elements
      | Some _ => inr []
      | None => raise JSONDecodeError
      end
  | None => inr []
  end.

(** The body of the [try] block once [requests.post] has returned or
    raised (lines 187-198). *)
Definition analyze_response (response : http_outcome) : exn + list json :=
  match response with
  | TransportFailure cause => raise (RequestException cause)
  | Response status_code text =>
      if (status_code =? 200)%Z then
        data <-? response_json text ;;
        content <-? content_text data ;;
        content <-? expect_str content ;;
        element_extractor content
      else inr []
  end.

Definition analyze_screenshot_with_ai (image_data : str) : M (list json) :=
  response <- requests_post (VisionRequest (vision_payload image_data)) ;;
  match analyze_response response with
  | inr elements => ret elements
  | inl e => show (st_error_analysis_failed e) ;; ret []
  end.

(** What the [except] clause of lines 199-201 makes of a result. *)
Definition elements_or_empty (r : exn + list json) : list json :=
  match r with
  | inr elements => elements
  | inl _ => []
  end.

(** ** Generation call and Document Extractor: [generate_provar_test] *)

(** Lines 311-325 on a response with status 200. *)
Definition generation_document (text : str) : exn + str :=
  data <-? response_json text ;;
  xml_content <-? content_text data ;;
  xml_content <-? expect_str xml_content ;;
  inr (document_extractor xml_content).

Definition generate_provar_test
    (test_name url description dom_html : str) (detected_elements : list json)
  : M (option str) :=
  response <- requests_post
                (GenerationRequest test_name url description dom_html
                                   detected_elements) ;;
  match response with
  | TransportFailure cause =>
      show (st_error_generation_failed (RequestException cause)) ;; ret None
  | Response status_code text =>
      if (status_code =? 200)%Z then
        match generation_document text with
        | inr xml_content => ret (Some xml_content)
        | inl e => show (st_error_generation_failed e) ;; ret None
        end
      else show (st_error_api status_code text) ;; ret None
  end.

(** ** Orchestrator: the handler of the "Generate" button (lines 523-556) *)

(** Truth value of a [str] or a [list]. *)
Definition truthy {A} (l : list A) : bool :=
  match l with
  | [] => false
  | _ :: _ => true
  end.

(** One turn of the loop of lines 531-534. *)
Definition analyze_one (img_data : screenshot) : M unit :=
  elements <- analyze_screenshot_with_ai (data img_data) ;;
  if truthy elements then extend_detected_elements elements else ret tt.

Definition analyze_screenshots (imgs : list screenshot) : M unit :=
  for_each imgs analyze_one.

Definition on_generate_click (test_name url description dom_html : str)
  : M unit :=
  if negb (truthy test_name) || negb (truthy description) then
    show st_error_missing_input
  else
    s <- get_session ;;
    (if truthy (screenshots s) && negb (truthy (detected_elements s)) then
       show st_info_analyzing ;;
       analyze_screenshots (screenshots s)
     else ret tt) ;;
    show st_info_generating ;;
    s <- get_session ;;
    generated_xml <- generate_provar_test test_name url description dom_html
                                          (detected_elements s) ;;
    match generated_xml with
    | Some xml =>
        if truthy xml then
          set_generated_test (Some xml) ;;
          show st_info_validating ;;
          set_validation_results (Some (validate_provar_test xml)) ;;
          show st_success_generated ;;
          show st_balloons
        else show st_error_no_test_case
    | None => show st_error_no_test_case
    end.

(** A call that produces no answer to work with: [requests.post] raised, or
    the status of the response is not 200. *)
Definition failed (o : http_outcome) : Prop :=
  match o with
  | TransportFailure _ => True
  | Response status_code _ => status_code <> 200%Z
  end.

(** The number of vision calls of one click: one per queued screenshot when
    the guard of line 529 holds, none otherwise. *)
Definition vision_calls (s : session_state) : nat :=
  if truthy (screenshots s) && negb (truthy (detected_elements s))
  then List.length (screenshots s)
  else 0.

(** The request that [analyze_screenshot_with_ai] posts for a screenshot. *)
Definition vision_request (img_data : screenshot) : request :=
  VisionRequest (vision_payload (data img_data)).

(** The elements that [analyze_screenshot_with_ai] returns when the
    endpoint's answer is [o]. *)
Definition vision_delta (o : http_outcome) : list json :=
  elements_or_empty (analyze_response o).

(** ** The step elements of a document

    A step is an element named [step]: its open tag is [<step] followed by
    a character that ends the name (whitespace, [>] or [/]).  The container
    of the steps opens with [<steps>]; its name, like every other name that
    starts with [step], gives an open tag of which [<step] is a prefix
    without being the open tag of a step. *)

(** The characters that end a tag name: space, tab, line feed, carriage
    return, [>] and [/]. *)
Definition ends_tag_name (c : N) : bool :=
  N.eqb c 32 || N.eqb c 9 || N.eqb c 10 || N.eqb c 13
  || N.eqb c 62 || N.eqb c 47.

(** [s] starts with the open tag of a step element. *)
Definition step_open_tag (s : str) : bool :=
  Str.startswith (py "<step") s
  && match skipn 5 s with
     | c :: _ => ends_tag_name c
     | [] => false
     end.

(** The number of step elements: the positions at which the open tag of a
    step starts. *)
Fixpoint step_elements (s : str) : nat :=
  match s with
  | [] => 0
  | _ :: s' => (if step_open_tag s then 1 else 0) + step_elements s'
  end.

(** Every occurrence of [<step] in [s] is the open tag of a step or the
    container tag [<steps>]: no other name starts with [step]. *)
Fixpoint step_prefix_only_in_tags (s : str) : bool :=
  match s with
  | [] => true
  | _ :: s' =>
      (negb (Str.startswith (py "<step") s)
       || step_open_tag s || Str.startswith (py "<steps>") s)
      && step_prefix_only_in_tags s'
  end.

(** [when b m] is the finding [m] if the rule [b] fires. *)
Definition when (b : bool) (m : str) : list str := if b then [m] else [].

(** ** The rest of the page: session set-up, uploads, the other buttons
       and the download *)

(** [st.session_state] as lines 121-131 set it up for a new session. *)
Definition initial_session : session_state := mk_session None [] None [].

Definition set_detected_elements (x : list json) : M unit :=
  s <- get_session ;;
  put_session (mk_session (generated_test s) x (validation_results s)
                          (screenshots s)).

Definition set_screenshots (x : list screenshot) : M unit :=
  s <- get_session ;;
  put_session (mk_session (generated_test s) (detected_elements s)
                          (validation_results s) x).

(** The alphabet of [base64.b64encode]; [=] pads the last group. *)
Definition b64_alphabet : str :=
  py "ABCDEFGHIJKLMNOPQRSTUVWXYZabcdefghijklmnopqrstuvwxyz0123456789+/".

Definition b64_char (i : N) : N := nth (N.to_nat i) b64_alphabet 61%N.

(** [base64.b64encode(value).decode()] on the bytes of a file, each a
    number below 256. *)
Fixpoint b64encode (value : list N) : str :=
  match value with
  | [] => []
  | [a] =>
      [b64_char (a / 4); b64_char ((a mod 4) * 16); 61; 61]%N
  | [a; b] =>
      [b64_char (a / 4); b64_char ((a mod 4) * 16 + b / 16);
       b64_char ((b mod 16) * 4); 61]%N
  | a :: b :: c :: rest =>
      (b64_char (a / 4) :: b64_char ((a mod 4) * 16 + b / 16)
       :: b64_char ((b mod 16) * 4 + c / 64) :: b64_char (c mod 64)
       :: b64encode rest)%N
  end.

(** A file of the uploader: its name, its bytes, and whether [Image.open]
    accepts these bytes (the uploader checks the extension only). *)
Record uploaded_file := mk_upload {
  upload_name : str;
  upload_value : list N;
  upload_opens : bool
}.

(** The screenshot that the session keeps of an uploaded file (lines
    492-496). *)
Definition screenshot_of (uploaded_file : uploaded_file) : screenshot :=
  mk_screenshot (upload_name uploaded_file)
                (b64encode (upload_value uploaded_file)).

(** The loop of lines 490-496.  [Image.open] comes first in each turn; when
    it raises, the run of the script ends there, and the result is
    [false]. *)
Fixpoint append_screenshots (uploaded_files : list uploaded_file) : M bool :=
  match uploaded_files with
  | [] => ret true
  | uploaded_file :: rest =>
      if upload_opens uploaded_file then
        s <- get_session ;;
        set_screenshots (screenshots s ++ [screenshot_of uploaded_file]) ;;
        append_screenshots rest
      else ret false
  end.

(** The files up to the first one that [Image.open] rejects. *)
Fixpoint opened_prefix (uploaded_files : list uploaded_file)
  : list uploaded_file :=
  match uploaded_files with
  | [] => []
  | f :: rest => if upload_opens f then f :: opened_prefix rest else []
  end.

(** Lines 488-496: what every run of the script does with the files of the
    uploader.  (The thumbnails it then displays are not recorded.) *)
Definition process_uploads (uploaded_files : list uploaded_file) : M bool :=
  if truthy uploaded_files then
    set_screenshots [] ;;
    append_screenshots uploaded_files
  else ret true.

(** The "Clear All" button of the sidebar (lines 429-433), up to the rerun
    that it asks for. *)
Definition on_clear_all : M unit :=
  set_generated_test None ;;
  set_detected_elements [] ;;
  set_validation_results None ;;
  set_screenshots [].

(** Truth value of [st.session_state.generated_test]. *)
Definition document_stored (s : session_state) : bool :=
  match generated_test s with
  | Some xml => truthy xml
  | None => false
  end.

(** The "Generate New" button (lines 662-664), up to the rerun that it asks
    for.  The page offers the button only while a document is stored
    (line 601). *)
Definition on_generate_new : M unit :=
  s <- get_session ;;
  if document_stored s then
    set_generated_test None ;;
    set_validation_results None
  else ret tt.

(** [s.replace(old, new)] for one-character [old] and [new]. *)
Definition replace_char (old new : N) (s : str) : str :=
  map (fun c => if N.eqb c old then new else c) s.

(** The file name of the download button (line 656).  The name [test_name]
    is bound whenever the line runs, so the first alternative is the one
    taken. *)
Definition download_file_name (test_name : str) : str :=
  replace_char 32 95 test_name ++ py ".testcase".

(** The steps of a run of the script that write the session: the upload
    block, and the handler of each of the three buttons. *)
Inductive action : Type :=
| Upload (uploaded_files : list uploaded_file)
| ClickGenerate (test_name url description dom_html : str)
| ClickClearAll
| ClickGenerateNew.

Definition perform (a : action) : M unit :=
  match a with
  | Upload uploaded_files => process_uploads uploaded_files ;; ret tt
  | ClickGenerate test_name url description dom_html =>
      on_generate_click test_name url description dom_html
  | ClickClearAll => on_clear_all
  | ClickGenerateNew => on_generate_new
  end.

(** The analysis step of lines 529-534, as one computation. *)
Definition analysis_step (w : world) : unit * world :=
  (if truthy (screenshots (session w))
      && negb (truthy (detected_elements (session w)))
   then show st_info_analyzing ;;
        analyze_screenshots (screenshots (session w))
   else ret tt) w.

(** The stored document and the stored validation go together: there is
    neither, or the document is a non-empty trimmed text and the validation
    is the one of this document. *)
Definition document_state_ok (s : session_state) : Prop :=
  match generated_test s, validation_results s with
  | None, None => True
  | Some xml, Some v =>
      xml <> [] /\ Str.strip xml = xml /\ v = validate_provar_test xml
  | _, _ => False
  end.

(** A message that reports a failure. *)
Definition is_error (e : ui_event) : bool :=
  match e with
  | st_error_analysis_failed _ | st_error_api _ _
  | st_error_generation_failed _ | st_error_missing_input
  | st_error_no_test_case => true
  | _ => false
  end.

(** ** Sample inputs *)

(** A document without the root element. *)
Definition doc_without_root : str := py "<steps></steps>".

(** A document with two step containers of one step each. *)
Definition doc_two_containers : str :=
  py "<testCase><steps><step id=1/></steps><steps><step id=2/></steps></testCase>".

(** A document with one step container, one step and one other element
    whose name starts with [step]. *)
Definition doc_with_step_data : str :=
  py "<steps><step id=1/><stepData/></steps>".

(** A document with one step container of two steps. *)
Definition doc_one_container : str :=
  py "<testCase><steps><step id=1/><step id=2/></steps></testCase>".

(** A markup text that itself holds a closing fence marker. *)
Definition markup_with_fence : str :=
  py "<a/>" ++ LF :: fence ++ LF :: py "<b/>".

(** A model answer made of prose, a labelled fence around a markup text,
    and more prose. *)
Definition sample_prose : str := py "Here is the test case:" ++ [LF].
Definition sample_markup : str := py "  <testCase/>" ++ [LF].
Definition sample_trailer : str := LF :: py "Import it into Provar.".

(** A model answer whose prose after the array holds brackets of its own. *)
Definition answer_lead : str := py "Elements: ".
Definition answer_items : str :=
  py "{" ++ quoted "type" ++ py ": " ++ quoted "button" ++ py "}".
Definition answer_tail : str := py " (see [1])".
Definition answer_with_brackets : str :=
  answer_lead ++ 91%N :: answer_items ++ 93%N :: answer_tail.

(** A PNG upload: the base64 text of a one-pixel PNG file. *)
Definition png_screenshot : screenshot :=
  mk_screenshot
    (py "login.png")
    (py "iVBORw0KGgoAAAANSUhEUgAAAAEAAAABCAYAAAAfFcSJAAAADUlEQVR42mNkYPhfDwAChwGA60e6kgAAAABJRU5ErkJggg==").

Definition jpeg_screenshot : screenshot :=
  mk_screenshot (py "home.jpg") (py "/9j/4AAQSkZJRgABAQEASABIAAD/2wBDAP8=").

Definition button_element : json :=
  JObject [(py "type", JString (py "button"))].
Definition input_element : json :=
  JObject [(py "type", JString (py "input"))].

Definition escaped (s : string) : str := 92%N :: 34%N :: py s ++ [92%N; 34%N].
Arguments escaped s%_string_scope.

(** The body of a successful vision answer whose text is an array of two
    elements. *)
Definition two_elements_body : str :=
  py "{" ++ quoted "content" ++ py ": [{" ++ quoted "type" ++ py ": "
    ++ quoted "text" ++ py ", " ++ quoted "text" ++ py ": "
    ++ 34%N :: py "[{" ++ escaped "type" ++ py ": " ++ escaped "button"
    ++ py "}, {" ++ escaped "type" ++ py ": " ++ escaped "input" ++ py "}]"
    ++ 34%N :: py "}]}".

(** An endpoint that answers every post with status 500. *)
Definition endpoint_500 : nat -> http_outcome :=
  fun _ => Response 500 (py "Internal Server Error").

(** An endpoint that times out on the first post, answers the second with
    two elements, and answers every later post with status 500. *)
Definition endpoint_scenario_D : nat -> http_outcome :=
  fun n =>
    match n with
    | 0 => TransportFailure (py "Read timed out.")
    | 1 => Response 200 two_elements_body
    | _ => Response 500 (py "Internal Server Error")
    end.

Definition earlier_document : str := py "<testCase><steps></steps></testCase>".

(** A session that holds a document, its validation and one screenshot whose
    elements were detected before. *)
Definition session_with_document : session_state :=
  mk_session (Some earlier_document) [button_element]
             (Some (validate_provar_test earlier_document))
             [png_screenshot].

(** A fresh session with two queued screenshots. *)
Definition session_two_screenshots : session_state :=
  mk_session None [] None [jpeg_screenshot; png_screenshot].

Definition world_500 : world :=
  mk_world session_with_document endpoint_500 [] [].

Definition world_scenario_D : world :=
  mk_world session_two_screenshots endpoint_scenario_D [] [].

Definition sample_name : str := py "SF_Login_Test".
Definition sample_description : str := py "Login and verify dashboard".

(** A document that uses the wait and the verification action. *)
Definition doc_with_wait_and_verify : str :=
  py "<testCase><steps><step action=SfWait/><step action=SfVerify/></steps></testCase>".

(** An answer cut off inside its fence. *)
Definition truncated_answer : str := fence_xml_open ++ py "<testCase><steps>".

(** The body of an answer whose text is [text], already escaped for JSON. *)
Definition text_body (text : str) : str :=
  py "{" ++ quoted "content" ++ py ": [{" ++ quoted "type" ++ py ": "
    ++ quoted "text" ++ py ", " ++ quoted "text" ++ py ": "
    ++ 34%N :: text ++ 34%N :: py "}]}".

Definition body_not_json : str := py "<html>Service busy</html>".
Definition body_prose_only : str :=
  text_body (py "No interactive elements are visible.").
Definition body_blank_document : str := text_body (py "   ").
Definition body_fenced_document : str :=
  text_body (py "```xml" ++ [92%N; 110%N] ++ earlier_document
               ++ [92%N; 110%N] ++ py "```").

(** An endpoint that answers every post with status 200 and [body]. *)
Definition endpoint_200 (body : str) : nat -> http_outcome :=
  fun _ => Response 200 body.

Definition world_200 (body : str) : world :=
  mk_world initial_session (endpoint_200 body) [] [].

(** Two uploads, the second of which is not an image. *)
Definition good_upload : uploaded_file :=
  mk_upload (py "home.png") [137; 80; 78; 71]%N true.
Definition bad_upload : uploaded_file :=
  mk_upload (py "notes.png") [104; 105]%N false.

(** * Properties *)

(** ** Prefixes, substrings and occurrences *)

Module StrFacts.

Lemma startswith_app (p r : str) : Str.startswith p (p ++ r) = true.
Proof.
  induction p as [|a p IH]; simpl; [reflexivity|].
  now rewrite N.eqb_refl, IH.
Qed.

Lemma startswith_inv (p s : str) :
  Str.startswith p s = true -> exists r, s = p ++ r.
Proof.
  revert s; induction p as [|a p IH]; intros s H.
  - now exists s.
  - destruct s as [|b s]; simpl in H; [discriminate|].
    apply andb_true_iff in H as [Hab Hps].
    apply N.eqb_eq in Hab; subst b.
    destruct (IH _ Hps) as [r ->].
    now exists r.
Qed.

Lemma startswith_iff (p s : str) :
  Str.startswith p s = true <-> exists r, s = p ++ r.
Proof.
  split; [apply startswith_inv|].
  intros [r ->]; apply startswith_app.
Qed.

Lemma startswith_nil_r (p : str) :
  Str.startswith p [] = true -> p = [].
Proof. destruct p; [reflexivity|discriminate]. Qed.

Lemma contains_inv (p s : str) :
  Str.contains p s = true -> exists a b, s = a ++ p ++ b.
Proof.
  induction s as [|c s IH]; simpl; intros H.
  - apply startswith_nil_r in H; subst p. now exists [], [].
  - apply orb_true_iff in H as [H|H].
    + apply startswith_inv in H as [r Hr].
      exists [], r. exact Hr.
    + destruct (IH H) as (a & b & ->).
      now exists (c :: a), b.
Qed.

Lemma contains_app (a p b : str) : Str.contains p (a ++ p ++ b) = true.
Proof.
  induction a as [|c a IH]; simpl.
  - destruct p as [|x p]; simpl.
    + destruct b; reflexivity.
    + now rewrite N.eqb_refl, startswith_app.
  - rewrite IH. apply orb_true_r.
Qed.

Lemma contains_iff (p s : str) :
  Str.contains p s = true <-> exists a b, s = a ++ p ++ b.
Proof.
  split; [apply contains_inv|].
  intros (a & b & ->); apply contains_app.
Qed.

(** A string in which [p] occurs at no position. *)
Lemma contains_false_cons (p : str) (c : N) (s : str) :
  Str.contains p (c :: s) = false ->
  Str.startswith p (c :: s) = false /\ Str.contains p s = false.
Proof. simpl. intros H. now apply orb_false_iff in H. Qed.

Lemma occurrences_pos_contains (p s : str) :
  p <> [] -> (1 <= Str.occurrences p s <-> Str.contains p s = true).
Proof.
  intros Hp. induction s as [|c s IH]; simpl.
  - split; [lia|].
    intros H; apply startswith_nil_r in H; contradiction.
  - destruct (Str.startswith p (c :: s)); simpl; [split; [reflexivity|lia]|].
    exact IH.
Qed.

Lemma py_inj (a b : string) : py a = py b -> a = b.
Proof.
  unfold py. intros H.
  rewrite <- (string_of_list_ascii_of_string a),
          <- (string_of_list_ascii_of_string b).
  f_equal.
  revert H. generalize (list_ascii_of_string a) (list_ascii_of_string b).
  induction l as [|x l IH]; intros [|y l']; simpl; intros H;
    try discriminate; [reflexivity|].
  injection H as Hxy Hl. f_equal; [|now apply IH].
  rewrite <- (ascii_N_embedding x), <- (ascii_N_embedding y).
  now rewrite Hxy.
Qed.

Lemma to_uint_nonnil (k : nat) : Nat.to_uint k <> Decimal.Nil.
Proof.
  rewrite <- (DecimalNat.Unsigned.of_to k) at 1.
  rewrite DecimalNat.Unsigned.to_of. apply DecimalFacts.unorm_nonnil.
Qed.

(** [str] of a number determines the number. *)
Lemma of_nat_inj (n m : nat) : Str.of_nat n = Str.of_nat m -> n = m.
Proof.
  unfold Str.of_nat. intros H. apply py_inj in H.
  apply DecimalNat.Unsigned.to_uint_inj.
  pose proof (NilZero.usu _ (to_uint_nonnil n)) as Un.
  pose proof (NilZero.usu _ (to_uint_nonnil m)) as Um.
  rewrite H in Un. congruence.
Qed.

(** [str] of a number starts with a decimal digit. *)
Lemma of_nat_digit (n : nat) :
  exists c r, Str.of_nat n = c :: r /\ (48 <= c <= 57)%N.
Proof.
  unfold Str.of_nat. destruct (Nat.to_uint n); simpl;
    eexists; eexists; (split; [reflexivity|cbv; split; discriminate]).
Qed.

End StrFacts.

(** ** The JSON decoder *)

Module JsonFacts.
Import Json.

Lemma skip_ws_length (s : str) : List.length (skip_ws s) <= List.length s.
Proof.
  induction s as [|c s IH]; simpl; [lia|].
  destruct (is_ws c); simpl; lia.
Qed.

Lemma span_digits_length (s ds r : str) :
  span_digits s = (ds, r) -> List.length r <= List.length s.
Proof.
  revert ds r. induction s as [|c s IH]; simpl; intros ds r H.
  - injection H as <- <-. simpl. lia.
  - destruct (is_digit c).
    + destruct (span_digits s) as [ds' r'] eqn:E.
      injection H as <- <-. specialize (IH _ _ eq_refl). lia.
    + injection H as <- <-. simpl. lia.
Qed.

Ltac same := intros H; cbn in H; injection H as <- <-; simpl; lia.

Lemma match_frac_length (s f r : str) :
  match_frac s = (f, r) -> List.length r <= List.length s.
Proof.
  unfold match_frac.
  destruct s as [|c [|d s]]; try same.
  destruct (N.eqb c 46 && is_digit d); [|same].
  destruct (span_digits s) as [ds r'] eqn:E.
  intros [= <- <-]. apply span_digits_length in E. simpl. lia.
Qed.

Lemma match_exp_length (s e r : str) :
  match_exp s = (e, r) -> List.length r <= List.length s.
Proof.
  unfold match_exp.
  destruct s as [|c s1]; [same|].
  destruct (N.eqb c 101 || N.eqb c 69); [|same].
  destruct s1 as [|x s2]; [same|].
  destruct (N.eqb x 43 || N.eqb x 45).
  - destruct s2 as [|d s3]; [same|].
    destruct (is_digit d); [|same].
    destruct (span_digits s3) as [ds r'] eqn:E.
    intros [= <- <-]. apply span_digits_length in E. simpl. lia.
  - destruct (is_digit x); [|same].
    destruct (span_digits s2) as [ds r'] eqn:E.
    intros [= <- <-]. apply span_digits_length in E. simpl. lia.
Qed.

Lemma match_number_length (s : str) (v : json) (r : str) :
  match_number s = Some (v, r) -> List.length r < List.length s.
Proof.
  unfold match_number.
  set (p := match s with
            | c :: s1 => if N.eqb c 45 then ([c], s1) else ([], s)
            | [] => ([], s)
            end).
  assert (Hp : List.length (snd p) <= List.length s).
  { unfold p. destruct s as [|c s1]; simpl; [lia|].
    destruct (N.eqb c 45); simpl; lia. }
  destruct p as [sign s1]. cbn [snd] in Hp.
  destruct s1 as [|c s2]; [discriminate|].
  set (i := if (49 <=? c)%N && (c <=? 57)%N
            then let (ds, r0) := span_digits s2 in Some (c :: ds, r0)
            else if N.eqb c 48 then Some ([c], s2) else None).
  assert (Hi : forall ds r0, i = Some (ds, r0) -> List.length r0 <= List.length s2).
  { unfold i. intros ds r0.
    destruct ((49 <=? c)%N && (c <=? 57)%N).
    - destruct (span_digits s2) as [ds' r'] eqn:E. intros [= <- <-].
      now apply span_digits_length in E.
    - destruct (N.eqb c 48); [|discriminate]. intros [= <- <-]. lia. }
  destruct i as [[digits s3]|]; [|discriminate].
  specialize (Hi _ _ eq_refl).
  destruct (match_frac s3) as [frac s4] eqn:Ef.
  destruct (match_exp s4) as [exp s5] eqn:Ee.
  apply match_frac_length in Ef. apply match_exp_length in Ee.
  simpl in Hp.
  destruct frac, exp; intros [= <- <-]; lia.
Qed.

Lemma push_inv (c : N) (rest : option (str * str)) (t r : str) :
  push c rest = Some (t, r) -> exists t', rest = Some (t', r).
Proof.
  destruct rest as [[t' r']|]; [|discriminate].
  intros [= <- <-]. now exists t'.
Qed.

Lemma scanstring_length (s t r : str) :
  scanstring s = Some (t, r) -> List.length r < List.length s.
Proof.
  enough (G : forall n s t r, List.length s <= n ->
                scanstring s = Some (t, r) -> List.length r < List.length s)
    by (apply (G (List.length s)); lia).
  clear s t r.
  induction n as [|n IH]; intros s t r Hle H.
  - destruct s; [discriminate|simpl in Hle; lia].
  - assert (Step : forall c s' t' r', List.length s' <= n ->
                     push c (scanstring s') = Some (t', r') ->
                     List.length r' < List.length s').
    { intros c s' t' r' Hl Hp. apply push_inv in Hp as [t'' Hp].
      exact (IH _ _ _ Hl Hp). }
    destruct s as [|c r0]; [discriminate|]. simpl in Hle. cbn [scanstring] in H.
    destruct (N.eqb c 34); [injection H as <- <-; simpl; lia|].
    destruct (N.eqb c 92).
    + destruct r0 as [|e r1]; [discriminate|]. simpl in Hle.
      destruct (N.eqb e 117).
      * destruct r1 as [|a [|b [|c' [|d r2]]]]; try discriminate.
        simpl in Hle.
        destruct (hex4 a b c' d) as [uni|]; [|discriminate].
        destruct r2 as [|x [|y [|a2 [|b2 [|c2 [|d2 r3]]]]]];
          try (apply Step in H; simpl in *; lia).
        simpl in Hle.
        destruct (is_high_surrogate uni && N.eqb x 92 && N.eqb y 117);
          [|apply Step in H; simpl in *; lia].
        destruct (hex4 a2 b2 c2 d2) as [uni2|]; [|discriminate].
        destruct (is_low_surrogate uni2); apply Step in H; simpl in *; lia.
      * destruct (backslash e); [|discriminate].
        apply Step in H; simpl in *; lia.
    + destruct (c <=? 31)%N; [discriminate|].
      apply Step in H; simpl in *; lia.
Qed.

Lemma skipn_shorter (k : nat) (c : N) (s : str) :
  List.length (skipn (S k) (c :: s)) < List.length (c :: s).
Proof. rewrite length_skipn. simpl. lia. Qed.

(** Every scanner takes at least one character. *)
Lemma scan_once_body_length pi pm (s : str) (v : json) (r : str) :
  (forall s' acc v' r', pi s' acc = Some (v', r') ->
                        List.length r' < List.length s') ->
  (forall s' acc v' r', pm s' acc = Some (v', r') ->
                        List.length r' < List.length s') ->
  scan_once_body pi pm s = Some (v, r) -> List.length r < List.length s.
Proof.
  intros Hpi Hpm. unfold scan_once_body.
  destruct s as [|c r0]; [discriminate|].
  destruct (N.eqb c 34).
  { destruct (scanstring r0) as [[t r']|] eqn:E; [|discriminate].
    intros [= <- <-]. apply scanstring_length in E. simpl. lia. }
  pose proof (skip_ws_length r0) as Hws.
  destruct (N.eqb c 123).
  { destruct (skip_ws r0) as [|c' r'] eqn:E; [discriminate|].
    destruct (N.eqb c' 125).
    - intros [= <- <-]. simpl in *. lia.
    - intros H. apply Hpm in H. simpl in *. lia. }
  destruct (N.eqb c 91).
  { destruct (skip_ws r0) as [|c' r'] eqn:E; [discriminate|].
    destruct (N.eqb c' 93).
    - intros [= <- <-]. simpl in *. lia.
    - intros H. apply Hpi in H. simpl in *. lia. }
  destruct (Str.startswith (py "null") (c :: r0));
    [intros [= <- <-]; exact (skipn_shorter 3 c r0)|].
  destruct (Str.startswith (py "true") (c :: r0));
    [intros [= <- <-]; exact (skipn_shorter 3 c r0)|].
  destruct (Str.startswith (py "false") (c :: r0));
    [intros [= <- <-]; exact (skipn_shorter 4 c r0)|].
  destruct (Str.startswith (py "NaN") (c :: r0));
    [intros [= <- <-]; exact (skipn_shorter 2 c r0)|].
  destruct (Str.startswith (py "Infinity") (c :: r0));
    [intros [= <- <-]; exact (skipn_shorter 7 c r0)|].
  destruct (Str.startswith (py "-Infinity") (c :: r0));
    [intros [= <- <-]; exact (skipn_shorter 8 c r0)|].
  apply match_number_length.
Qed.

Lemma parse_items_body_length so pi (s : str) (acc : list json)
      (v : json) (r : str) :
  (forall v' r', so s = Some (v', r') -> List.length r' < List.length s) ->
  (forall s' acc' v' r', pi s' acc' = Some (v', r') ->
                         List.length r' < List.length s') ->
  parse_items_body so pi s acc = Some (v, r) -> List.length r < List.length s.
Proof.
  intros Hso Hpi. unfold parse_items_body.
  destruct (so s) as [[x r1]|] eqn:E; [|discriminate].
  specialize (Hso _ _ eq_refl).
  pose proof (skip_ws_length r1) as Hws.
  destruct (skip_ws r1) as [|c r2]; [discriminate|].
  destruct (N.eqb c 93); [intros [= <- <-]; simpl in *; lia|].
  destruct (N.eqb c 44); [|discriminate].
  intros H. apply Hpi in H. pose proof (skip_ws_length r2). simpl in *. lia.
Qed.

Lemma parse_members_body_length so pm (s : str) (acc : list (str * json))
      (v : json) (r : str) :
  (forall s' v' r', so s' = Some (v', r') -> List.length r' < List.length s') ->
  (forall s' acc' v' r', pm s' acc' = Some (v', r') ->
                         List.length r' < List.length s') ->
  parse_members_body so pm s acc = Some (v, r) ->
  List.length r < List.length s.
Proof.
  intros Hso Hpm. unfold parse_members_body.
  destruct s as [|c r0]; [discriminate|].
  destruct (N.eqb c 34); [|discriminate].
  destruct (scanstring r0) as [[key r1]|] eqn:Ek; [|discriminate].
  apply scanstring_length in Ek.
  pose proof (skip_ws_length r1) as W1.
  destruct (skip_ws r1) as [|c1 r2]; [discriminate|].
  destruct (N.eqb c1 58); [|discriminate].
  pose proof (skip_ws_length r2) as W2.
  destruct (so (skip_ws r2)) as [[x r3]|] eqn:Ev; [|discriminate].
  apply Hso in Ev.
  pose proof (skip_ws_length r3) as W3.
  destruct (skip_ws r3) as [|c3 r4]; [discriminate|].
  destruct (N.eqb c3 125); [intros [= <- <-]; simpl in *; lia|].
  destruct (N.eqb c3 44); [|discriminate].
  intros H. apply Hpm in H. pose proof (skip_ws_length r4). simpl in *. lia.
Qed.

Lemma scanners_length (n : nat) :
  (forall s v r, scan_once n s = Some (v, r) ->
                 List.length r < List.length s)
  /\ (forall s acc v r, parse_items n s acc = Some (v, r) ->
                        List.length r < List.length s)
  /\ (forall s acc v r, parse_members n s acc = Some (v, r) ->
                        List.length r < List.length s).
Proof.
  induction n as [|n (IHs & IHi & IHm)].
  - repeat split; intros; discriminate.
  - repeat split; intros *; cbn [scan_once parse_items parse_members].
    + now apply scan_once_body_length.
    + apply parse_items_body_length; [intros *; apply IHs|assumption].
    + now apply parse_members_body_length.
Qed.

(** A scanner body keeps its result when the scanners handed to it are
    replaced by scanners that agree with them on shorter texts. *)
Lemma scan_once_body_local pi pi' pm pm' (s : str) (res : json * str) :
  (forall s' acc res', List.length s' < List.length s ->
                       pi s' acc = Some res' -> pi' s' acc = Some res') ->
  (forall s' acc res', List.length s' < List.length s ->
                       pm s' acc = Some res' -> pm' s' acc = Some res') ->
  scan_once_body pi pm s = Some res -> scan_once_body pi' pm' s = Some res.
Proof.
  intros Hpi Hpm. unfold scan_once_body.
  destruct s as [|c r0]; [discriminate|].
  destruct (N.eqb c 34); [exact (fun H => H)|].
  pose proof (skip_ws_length r0) as Hws.
  destruct (N.eqb c 123).
  { destruct (skip_ws r0) as [|c' r']; [discriminate|].
    destruct (N.eqb c' 125); [exact (fun H => H)|].
    apply Hpm. simpl in *. lia. }
  destruct (N.eqb c 91); [|exact (fun H => H)].
  destruct (skip_ws r0) as [|c' r']; [discriminate|].
  destruct (N.eqb c' 93); [exact (fun H => H)|].
  apply Hpi. simpl in *. lia.
Qed.

Lemma parse_items_body_local so so' pi pi' (s : str) (acc : list json)
      (res : json * str) :
  (forall v r, so s = Some (v, r) -> List.length r < List.length s) ->
  (forall res', so s = Some res' -> so' s = Some res') ->
  (forall s' acc' res', List.length s' + 2 <= List.length s ->
                        pi s' acc' = Some res' -> pi' s' acc' = Some res') ->
  parse_items_body so pi s acc = Some res ->
  parse_items_body so' pi' s acc = Some res.
Proof.
  intros Hlen Hso Hpi. unfold parse_items_body.
  destruct (so s) as [[x r1]|] eqn:E; [|discriminate].
  rewrite (Hso _ eq_refl). specialize (Hlen _ _ eq_refl).
  pose proof (skip_ws_length r1) as Hws.
  destruct (skip_ws r1) as [|c r2]; [discriminate|].
  destruct (N.eqb c 93); [exact (fun H => H)|].
  destruct (N.eqb c 44); [|discriminate].
  apply Hpi. pose proof (skip_ws_length r2). simpl in *. lia.
Qed.

Lemma parse_members_body_local so so' pm pm' (s : str)
      (acc : list (str * json)) (res : json * str) :
  (forall s' v r, so s' = Some (v, r) -> List.length r < List.length s') ->
  (forall s' res', List.length s' < List.length s ->
                   so s' = Some res' -> so' s' = Some res') ->
  (forall s' acc' res', List.length s' + 2 <= List.length s ->
                        pm s' acc' = Some res' -> pm' s' acc' = Some res') ->
  parse_members_body so pm s acc = Some res ->
  parse_members_body so' pm' s acc = Some res.
Proof.
  intros Hlen Hso Hpm. unfold parse_members_body.
  destruct s as [|c r0]; [discriminate|].
  destruct (N.eqb c 34); [|discriminate].
  destruct (scanstring r0) as [[key r1]|] eqn:Ek; [|discriminate].
  apply scanstring_length in Ek.
  pose proof (skip_ws_length r1) as W1.
  destruct (skip_ws r1) as [|c1 r2]; [discriminate|].
  destruct (N.eqb c1 58); [|discriminate].
  pose proof (skip_ws_length r2) as W2.
  destruct (so (skip_ws r2)) as [[x r3]|] eqn:Ev; [|discriminate].
  assert (Hshort : List.length (skip_ws r2) < List.length (c :: r0))
    by (simpl in *; lia).
  rewrite (Hso _ _ Hshort Ev).
  apply Hlen in Ev.
  pose proof (skip_ws_length r3) as W3.
  destruct (skip_ws r3) as [|c3 r4]; [discriminate|].
  destruct (N.eqb c3 125); [exact (fun H => H)|].
  destruct (N.eqb c3 44); [|discriminate].
  apply Hpm. pose proof (skip_ws_length r4). simpl in *. lia.
Qed.

(** More fuel does not change a result. *)
Lemma scanners_mono (n : nat) :
  forall m, n <= m ->
    (forall s res, scan_once n s = Some res -> scan_once m s = Some res)
    /\ (forall s acc res, parse_items n s acc = Some res ->
                          parse_items m s acc = Some res)
    /\ (forall s acc res, parse_members n s acc = Some res ->
                          parse_members m s acc = Some res).
Proof.
  induction n as [|n IH]; intros m Hm.
  - repeat split; intros; discriminate.
  - destruct m as [|m]; [lia|].
    destruct (IH m ltac:(lia)) as (IHs & IHi & IHm).
    destruct (scanners_length n) as (Ls & Li & Lm).
    repeat split; intros *; cbn [scan_once parse_items parse_members].
    + apply scan_once_body_local; intros *; intros _; [apply IHi|apply IHm].
    + apply parse_items_body_local;
        [intros *; apply Ls|apply IHs|intros *; intros _; apply IHi].
    + apply parse_members_body_local;
        [apply Ls|intros *; intros _; apply IHs|intros *; intros _; apply IHm].
Qed.

(** A result obtained with any fuel is obtained with fuel proportional to
    the length of the text. *)
Lemma scanners_bounded (n : nat) :
  (forall s res, scan_once n s = Some res ->
                 scan_once (2 * List.length s) s = Some res)
  /\ (forall s acc res, parse_items n s acc = Some res ->
                        parse_items (2 * List.length s + 1) s acc = Some res)
  /\ (forall s acc res, parse_members n s acc = Some res ->
                        parse_members (2 * List.length s + 1) s acc = Some res).
Proof.
  induction n as [|n (IHs & IHi & IHm)].
  - repeat split; intros; discriminate.
  - destruct (scanners_length n) as (Ls & Li & Lm).
    repeat split.
    + intros s res. destruct s as [|c r0]; [discriminate|].
      replace (2 * List.length (c :: r0)) with (S (2 * List.length r0 + 1))
        by (simpl; lia).
      cbn [scan_once]. apply scan_once_body_local.
      * intros s' acc res' Hl H. apply IHi in H.
        refine (proj1 (proj2 (scanners_mono _ _ _)) _ _ _ H).
        simpl in Hl. lia.
      * intros s' acc res' Hl H. apply IHm in H.
        refine (proj2 (proj2 (scanners_mono _ _ _)) _ _ _ H).
        simpl in Hl. lia.
    + intros s acc res.
      replace (2 * List.length s + 1) with (S (2 * List.length s)) by lia.
      cbn [parse_items]. apply parse_items_body_local.
      * intros *; apply Ls.
      * apply IHs.
      * intros s' acc' res' Hl H. apply IHi in H.
        refine (proj1 (proj2 (scanners_mono _ _ _)) _ _ _ H). lia.
    + intros s acc res.
      replace (2 * List.length s + 1) with (S (2 * List.length s)) by lia.
      cbn [parse_members]. apply parse_members_body_local.
      * apply Ls.
      * intros s' res' Hl H. apply IHs in H.
        refine (proj1 (scanners_mono _ _ _) _ _ H). lia.
      * intros s' acc' res' Hl H. apply IHm in H.
        refine (proj2 (proj2 (scanners_mono _ _ _)) _ _ _ H). lia.
Qed.

(** The fuel that [loads] gives to [scan_once] is never used up: what any
    amount of fuel decodes, that amount decodes. *)
Theorem fuel_enough (s : str) (n : nat) (res : json * str) :
  scan_once n (skip_ws s) = Some res ->
  scan_once (2 * List.length s + 2) (skip_ws s) = Some res.
Proof.
  intros H. apply (proj1 (scanners_bounded n)) in H.
  refine (proj1 (scanners_mono _ _ _) _ _ H).
  pose proof (skip_ws_length s). lia.
Qed.

End JsonFacts.

(** ** Document Validator *)

Module ValidatorFacts.
Import StrFacts.

(** The nine rules are independent: each field of the result is the list
    of the findings of its rules, in the order of the rules. *)
Lemma validate_fields (s : str) :
  validate_provar_test s =
  mk_validation
    (Str.contains (py "<testCase") s && Str.contains (py "<steps>") s)
    (when (negb (Str.contains (py "<testCase") s)) msg_missing_root
     ++ when (negb (Str.contains (py "<steps>") s)) msg_missing_steps)
    (when (negb (Str.startswith (py "<?xml") s)) msg_missing_declaration
     ++ when (negb (Str.contains (py "<summary>") s)) msg_missing_summary
     ++ when (negb (existsb (fun a => Str.contains a s) sf_actions))
             msg_no_sf_actions
     ++ when (negb (Str.contains (py "<locator") s)) msg_no_locators)
    (when (existsb (fun a => Str.contains a s) sf_actions) msg_sf_actions
     ++ when (Str.contains (py "<locator") s) msg_locators
     ++ when (truthy (Str.findall (py "<step") s))
             (msg_step_count (List.length (Str.findall (py "<step") s)))
     ++ when (Str.contains (py "SfWait") s
              || Str.contains (py "waitForPageLoad") s) msg_waits
     ++ when (Str.contains (py "SfVerify") s
              || Str.contains (py "Assert") s) msg_assertions).
Proof.
  unfold validate_provar_test.
  generalize (msg_step_count (List.length (Str.findall (py "<step") s))).
  intro m.
  destruct (Str.startswith (py "<?xml") s);
    destruct (Str.contains (py "<testCase") s);
    destruct (Str.contains (py "<summary>") s);
    destruct (Str.contains (py "<steps>") s);
    destruct (existsb (fun a => Str.contains a s) sf_actions);
    destruct (Str.contains (py "<locator") s);
    destruct (Str.findall (py "<step") s);
    destruct (Str.contains (py "SfWait") s
              || Str.contains (py "waitForPageLoad") s);
    destruct (Str.contains (py "SfVerify") s
              || Str.contains (py "Assert") s);
    reflexivity.
Qed.

Lemma in_when (x : str) (b : bool) (m : str) :
  In x (when b m) <-> b = true /\ m = x.
Proof.
  destruct b; simpl; intuition discriminate.
Qed.

(** The matches of [<step] cannot overlap, so [re.findall] finds every
    occurrence. *)
Lemma findall_step_length (s : str) :
  List.length (Str.findall (py "<step") s) = Str.occurrences (py "<step") s.
Proof.
  unfold Str.findall.
  remember (List.length s) as n eqn:Hn.
  assert (Hle : List.length s <= n) by lia. clear Hn.
  revert s Hle. induction n as [|n IH]; intros s Hle.
  - destruct s; [reflexivity|simpl in Hle; lia].
  - destruct s as [|c s]; [reflexivity|].
    cbn [Str.findall_from Str.occurrences].
    destruct (Str.startswith (py "<step") (c :: s)) eqn:E.
    + apply startswith_inv in E as [r Hr].
      injection Hr as -> ->.
      cbn. f_equal. apply IH. simpl in Hle. lia.
    + simpl. apply IH. simpl in Hle. lia.
Qed.

Lemma steps_prefix (s : str) :
  Str.startswith (py "<steps>") s = true ->
  Str.startswith (py "<step") s = true.
Proof.
  intros H. apply startswith_inv in H as [r ->]. reflexivity.
Qed.

(** The open tag of a step is an occurrence of [<step] and none of
    [<steps>]. *)
Lemma step_open_tag_inv (s : str) :
  step_open_tag s = true ->
  Str.startswith (py "<step") s = true
  /\ Str.startswith (py "<steps>") s = false.
Proof.
  unfold step_open_tag. intros H. apply andb_true_iff in H as [H1 H2].
  split; [exact H1|].
  destruct (Str.startswith (py "<steps>") s) eqn:E; [|reflexivity].
  apply startswith_inv in E as [r ->]. cbn in H2. discriminate H2.
Qed.

(** The step elements and the container tags are distinct occurrences of
    [<step]. *)
Lemma step_counts_lower (s : str) :
  step_elements s + Str.occurrences (py "<steps>") s
  <= Str.occurrences (py "<step") s.
Proof.
  induction s as [|c s IH]; [cbn; lia|].
  cbn [Str.occurrences step_elements].
  destruct (step_open_tag (c :: s)) eqn:T.
  - apply step_open_tag_inv in T as [T1 T2]. rewrite T1, T2. lia.
  - destruct (Str.startswith (py "<steps>") (c :: s)) eqn:E.
    + rewrite (steps_prefix _ E). lia.
    + destruct (Str.startswith (py "<step") (c :: s)); lia.
Qed.

(** When no other name starts with [step], they are all the occurrences. *)
Lemma step_counts_exact (s : str) :
  step_prefix_only_in_tags s = true ->
  Str.occurrences (py "<step") s
  = step_elements s + Str.occurrences (py "<steps>") s.
Proof.
  induction s as [|c s IH]; [reflexivity|].
  cbn [step_prefix_only_in_tags]. intros H.
  apply andb_true_iff in H as [H Hs].
  cbn [Str.occurrences step_elements]. rewrite (IH Hs).
  destruct (step_open_tag (c :: s)) eqn:T.
  - apply step_open_tag_inv in T as [T1 T2]. rewrite T1, T2. lia.
  - destruct (Str.startswith (py "<steps>") (c :: s)) eqn:E.
    + rewrite (steps_prefix _ E). lia.
    + destruct (Str.startswith (py "<step") (c :: s)); [discriminate H|lia].
Qed.

(** No other info message can be taken for a step count. *)
Lemma msg_step_count_fresh (n : nat) :
  msg_step_count n <> msg_sf_actions /\ msg_step_count n <> msg_locators
  /\ msg_step_count n <> msg_waits /\ msg_step_count n <> msg_assertions.
Proof.
  destruct (of_nat_digit n) as (c & r & E & Hc).
  unfold msg_step_count. rewrite E.
  repeat split; cbn; intros H; try discriminate H;
    injection H as Hc' _; subst c; lia.
Qed.

Lemma msg_step_count_inj (n m : nat) :
  msg_step_count n = msg_step_count m -> n = m.
Proof.
  unfold msg_step_count. intros H.
  injection H as H.
  apply app_inv_tail in H.
  now apply of_nat_inj.
Qed.

End ValidatorFacts.

(** C1.  For every input text, the result of the Document Validator has
    [is_valid = true] if and only if its sequence of errors is empty. *)
Theorem validation_valid_iff_no_errors (xml_content : str) :
  is_valid (validate_provar_test xml_content) = true
  <-> errors (validate_provar_test xml_content) = [].
Proof.
  rewrite ValidatorFacts.validate_fields; cbn [is_valid errors].
  destruct (Str.contains (py "<testCase") xml_content);
    destruct (Str.contains (py "<steps>") xml_content);
    cbn; split; intros H; (reflexivity || discriminate H).
Qed.

(** C2.  For every document text in which the root test-case open tag
    [<testCase] does not occur, the Document Validator returns a result with
    [is_valid = false] whose errors contain the missing-root message. *)
Theorem missing_root_is_invalid (xml_content : str) :
  Str.contains (py "<testCase") xml_content = false ->
  is_valid (validate_provar_test xml_content) = false
  /\ In msg_missing_root (errors (validate_provar_test xml_content)).
Proof.
  intros H.
  rewrite ValidatorFacts.validate_fields; cbn [is_valid errors].
  rewrite H. split; [reflexivity|]. cbn. now left.
Qed.

Lemma missing_root_is_invalid_witness :
  is_valid (validate_provar_test doc_without_root) = false
  /\ In msg_missing_root (errors (validate_provar_test doc_without_root)).
Proof.
  apply (missing_root_is_invalid doc_without_root). reflexivity.
Defined.

(** C10 as the specification states it fails on a document with two step
    containers: [<steps>] occurs in it, it has two step elements, and the
    count reported is four, not three. *)
Lemma step_count_two_containers :
  Str.contains (py "<steps>") doc_two_containers = true
  /\ step_elements doc_two_containers = 2
  /\ In (msg_step_count 4) (info (validate_provar_test doc_two_containers))
  /\ ~ In (msg_step_count (S (step_elements doc_two_containers)))
         (info (validate_provar_test doc_two_containers)).
Proof.
  repeat split; try (vm_compute; tauto).
  vm_compute. intros H.
  repeat (destruct H as [H|H]; [discriminate H|]). exact H.
Qed.

(** It fails as well with a single container, on a document that holds
    another element whose name starts with [step]: one step element, and a
    count of three. *)
Example step_count_other_step_name :
  Str.occurrences (py "<steps>") doc_with_step_data = 1
  /\ step_elements doc_with_step_data = 1
  /\ In (msg_step_count 3) (info (validate_provar_test doc_with_step_data))
  /\ ~ In (msg_step_count 2) (info (validate_provar_test doc_with_step_data)).
Proof.
  repeat split; try (vm_compute; tauto).
  vm_compute. intros H.
  repeat (destruct H as [H|H]; [discriminate H|]). exact H.
Qed.

(** C10, amended.  For every document text, the info sequence of the
    Document Validator contains the step-count entry for [n] if and only if
    [<step] occurs at least once and [n] is the number of its occurrences.
    The pattern matches the container tag [<steps>] too, and every other
    tag whose name starts with [step]: a document in which [<steps>] occurs
    gets an entry whose count is at least the number of its step elements
    plus the number of occurrences of [<steps>], hence more than the number
    of its step elements; the count is the number of step elements plus one
    when [<steps>] occurs once and [<step] occurs nowhere but in the open
    tags of steps and in that tag. *)
Theorem step_count_entry (xml_content : str) :
  (forall n,
      In (msg_step_count n) (info (validate_provar_test xml_content))
      <-> Str.contains (py "<step") xml_content = true
          /\ n = Str.occurrences (py "<step") xml_content)
  /\ (Str.contains (py "<steps>") xml_content = true ->
      exists n,
        In (msg_step_count n) (info (validate_provar_test xml_content))
        /\ step_elements xml_content
             + Str.occurrences (py "<steps>") xml_content <= n
        /\ step_elements xml_content < n)
  /\ (Str.occurrences (py "<steps>") xml_content = 1 ->
      step_prefix_only_in_tags xml_content = true ->
      In (msg_step_count (S (step_elements xml_content)))
         (info (validate_provar_test xml_content))).
Proof.
  assert (Hpos : truthy (Str.findall (py "<step") xml_content) = true
                 <-> Str.contains (py "<step") xml_content = true).
  { rewrite <- StrFacts.occurrences_pos_contains by discriminate.
    rewrite <- ValidatorFacts.findall_step_length.
    destruct (Str.findall (py "<step") xml_content); simpl;
      split; intros H; (reflexivity || discriminate H || lia). }
  assert (Hin : forall n,
      In (msg_step_count n) (info (validate_provar_test xml_content))
      <-> Str.contains (py "<step") xml_content = true
          /\ n = Str.occurrences (py "<step") xml_content).
  { intros n.
    rewrite ValidatorFacts.validate_fields; cbn [info].
    rewrite !in_app_iff, !ValidatorFacts.in_when.
    rewrite ValidatorFacts.findall_step_length, Hpos.
    destruct (ValidatorFacts.msg_step_count_fresh n) as (F1 & F2 & F3 & F4).
    split.
    - intros [[_ E]|[[_ E]|[[Hc E]|[[_ E]|[_ E]]]]];
        try (symmetry in E; contradiction).
      split; [exact Hc|].
      symmetry. now apply ValidatorFacts.msg_step_count_inj.
    - intros [Hc ->]. right. right. left. now split. }
  pose proof (ValidatorFacts.step_counts_lower xml_content) as Low.
  split; [exact Hin|]. split.
  - intros Hc.
    assert (O : 1 <= Str.occurrences (py "<steps>") xml_content)
      by (apply StrFacts.occurrences_pos_contains; [discriminate|exact Hc]).
    exists (Str.occurrences (py "<step") xml_content).
    split; [|lia]. apply Hin. split; [|reflexivity].
    apply StrFacts.occurrences_pos_contains; [discriminate|lia].
  - intros H1 Honly. apply Hin.
    rewrite (ValidatorFacts.step_counts_exact _ Honly), H1.
    split; [|lia].
    apply StrFacts.occurrences_pos_contains; [discriminate|lia].
Qed.

Lemma step_count_entry_witness :
  (exists n,
     In (msg_step_count n) (info (validate_provar_test doc_with_step_data))
     /\ step_elements doc_with_step_data
          + Str.occurrences (py "<steps>") doc_with_step_data <= n
     /\ step_elements doc_with_step_data < n)
  /\ In (msg_step_count (S (step_elements doc_one_container)))
        (info (validate_provar_test doc_one_container)).
Proof.
  split.
  - apply (proj1 (proj2 (step_count_entry doc_with_step_data))).
    reflexivity.
  - apply (proj2 (proj2 (step_count_entry doc_one_container)));
      reflexivity.
Defined.

(** ** Document Extractor *)

Module DocumentFacts.
Import StrFacts.

Lemma contains_false_app (p x s : str) :
  Str.contains p s = false -> Str.contains (p ++ x) s = false.
Proof.
  intros H. destruct (Str.contains (p ++ x) s) eqn:E; [|reflexivity].
  apply contains_inv in E as (a & b & ->).
  rewrite <- app_assoc, contains_app in H. discriminate.
Qed.

Lemma search_fenced_absent (opener closer s : str) :
  Str.contains opener s = false -> Re.search_fenced opener closer s = None.
Proof.
  induction s as [|c s IH]; [reflexivity|].
  intros H. apply contains_false_cons in H as [H1 H2].
  cbn [Re.search_fenced]. rewrite H1. now apply IH.
Qed.

Ltac clash H :=
  apply startswith_inv in H as [? H]; cbn in H;
  injection H; intros; subst; discriminate.

Lemma close_no_straddle (m x : str) :
  Str.startswith fence_close (m ++ fence_close ++ x) = true ->
  m = [] \/ Str.startswith fence_close m = true.
Proof.
  intros H.
  destruct m as [|a [|b [|c [|d m]]]]; [now left| | | |];
    try (exfalso; clash H).
  right. exact H.
Qed.

Lemma lazy_until_close (m x : str) :
  Str.contains fence_close m = false ->
  Re.lazy_until fence_close (m ++ fence_close ++ x) = Some m.
Proof.
  induction m as [|a m IH]; intros H; [reflexivity|].
  apply contains_false_cons in H as [H1 H2].
  cbn [app Re.lazy_until].
  destruct (Str.startswith fence_close (a :: m ++ fence_close ++ x)) eqn:E.
  - apply (close_no_straddle (a :: m)) in E as [E|E]; [discriminate|congruence].
  - now rewrite IH.
Qed.

Lemma open_no_straddle (p x : str) :
  Str.startswith fence_xml_open (p ++ fence_xml_open ++ x) = true ->
  p = [] \/ Str.startswith fence_xml_open p = true.
Proof.
  intros H.
  destruct p as [|a1 [|a2 [|a3 [|a4 [|a5 [|a6 [|a7 p]]]]]]]; [now left| | | | | | |];
    try (exfalso; clash H).
  right. exact H.
Qed.

Lemma search_fenced_xml (p m x : str) :
  Str.contains fence_xml_open p = false ->
  Str.contains fence_close m = false ->
  Re.search_fenced fence_xml_open fence_close
    (p ++ fence_xml_open ++ m ++ fence_close ++ x) = Some m.
Proof.
  intros Hp Hm. induction p as [|a p IH].
  - cbn [app]. change (fence_xml_open ++ m ++ fence_close ++ x)
      with (96%N :: skipn 1 fence_xml_open ++ m ++ fence_close ++ x)%list.
    cbn [Re.search_fenced].
    change (96%N :: skipn 1 fence_xml_open ++ m ++ fence_close ++ x)
      with (fence_xml_open ++ m ++ fence_close ++ x).
    rewrite startswith_app.
    change (skipn (List.length fence_xml_open) (fence_xml_open ++ m ++ fence_close ++ x))
      with (m ++ fence_close ++ x).
    now rewrite lazy_until_close.
  - apply contains_false_cons in Hp as [H1 H2].
    cbn [app Re.search_fenced].
    destruct (Str.startswith fence_xml_open (a :: p ++ fence_xml_open ++ m ++ fence_close ++ x)) eqn:E.
    + apply (open_no_straddle (a :: p)) in E as [E|E]; [discriminate|congruence].
    + now apply IH.
Qed.

End DocumentFacts.

(** C3 as the specification states it fails on a markup text that holds a line
    break followed by a fence marker: the lazy group stops there. *)
Lemma document_extractor_inner_fence :
  document_extractor (fence_xml_open ++ markup_with_fence ++ fence_close)
  = py "<a/>"
  /\ Str.strip markup_with_fence = markup_with_fence
  /\ document_extractor (fence_xml_open ++ markup_with_fence ++ fence_close)
     <> Str.strip markup_with_fence.
Proof.
  repeat split; try reflexivity.
  vm_compute. discriminate.
Qed.

(** C3, amended.  For every markup text M in which no line break is
    followed by a fence marker, the Document Extractor applied to M wrapped
    in a labelled fence returns M trimmed, the fence markers removed; this
    also holds with prose before the fence in which the labelled opener does
    not occur and any text after the fence.  Applied to a text M in which no
    fence marker occurs, it returns M trimmed. *)
Theorem document_extractor_round_trip (prose markup trailer : str) :
  (Str.contains fence_xml_open prose = false ->
   Str.contains fence_close markup = false ->
   document_extractor
     (prose ++ fence_xml_open ++ markup ++ fence_close ++ trailer)
   = Str.strip markup)
  /\ (Str.contains fence markup = false ->
      document_extractor markup = Str.strip markup).
Proof.
  split.
  - intros Hp Hm. unfold document_extractor.
    now rewrite DocumentFacts.search_fenced_xml.
  - intros H. unfold document_extractor.
    rewrite !DocumentFacts.search_fenced_absent; [reflexivity| |].
    + now apply (DocumentFacts.contains_false_app fence [LF]).
    + now apply (DocumentFacts.contains_false_app fence (py "xml" ++ [LF])).
Qed.

Lemma document_extractor_round_trip_witness :
  document_extractor
    (sample_prose ++ fence_xml_open ++ sample_markup ++ fence_close
       ++ sample_trailer)
  = Str.strip sample_markup
  /\ document_extractor sample_markup = Str.strip sample_markup.
Proof.
  split.
  - apply (proj1 (document_extractor_round_trip
                    sample_prose sample_markup sample_trailer));
      reflexivity.
  - apply (proj2 (document_extractor_round_trip [] sample_markup []));
      reflexivity.
Defined.

(** ** Element Extractor *)

Module ElementFacts.

Lemma greedy_through_absent (c : N) (s : str) :
  ~ In c s -> Re.greedy_through c s = None.
Proof.
  induction s as [|a s IH]; [reflexivity|].
  intros H. simpl. rewrite IH by (intros F; apply H; now right).
  destruct (N.eqb_spec a c) as [->|Hne]; [|reflexivity].
  exfalso. apply H. now left.
Qed.

Lemma greedy_through_last (c : N) (mid post : str) :
  ~ In c post ->
  Re.greedy_through c (mid ++ c :: post) = Some (mid ++ [c]).
Proof.
  intros H. induction mid as [|a mid IH]; simpl.
  - now rewrite greedy_through_absent, N.eqb_refl.
  - now rewrite IH.
Qed.

Lemma greedy_through_inv (c : N) (s g : str) :
  Re.greedy_through c s = Some g ->
  exists mid post, s = mid ++ c :: post /\ g = mid ++ [c].
Proof.
  revert g. induction s as [|a s IH]; intros g H; [discriminate|].
  simpl in H. destruct (Re.greedy_through c s) as [g'|].
  - injection H as <-. destruct (IH _ eq_refl) as (mid & post & -> & ->).
    now exists (a :: mid), post.
  - destruct (N.eqb_spec a c) as [->|]; [|discriminate].
    injection H as <-. now exists [], s.
Qed.

Lemma search_brackets_span (pre mid post : str) :
  ~ In 91%N pre -> ~ In 93%N post ->
  Re.search_brackets (pre ++ 91%N :: mid ++ 93%N :: post)
  = Some (91%N :: mid ++ [93%N]).
Proof.
  intros Hpre Hpost. induction pre as [|a pre IH]; simpl.
  - now rewrite greedy_through_last.
  - destruct (N.eqb_spec a 91) as [->|_].
    + exfalso. apply Hpre. now left.
    + apply IH. intros F. apply Hpre. now right.
Qed.

Lemma search_brackets_inv (s g : str) :
  Re.search_brackets s = Some g ->
  exists pre mid post,
    s = pre ++ 91%N :: mid ++ 93%N :: post /\ g = 91%N :: mid ++ [93%N].
Proof.
  induction s as [|a s IH]; [discriminate|].
  simpl. destruct (N.eqb_spec a 91) as [->|_].
  - destruct (Re.greedy_through 93 s) as [g'|] eqn:E.
    + intros [= <-].
      apply greedy_through_inv in E as (mid & post & -> & ->).
      now exists [], mid, post.
    + intros H. destruct (IH H) as (pre & mid & post & -> & ->).
      now exists (91%N :: pre), mid, post.
  - intros H. destruct (IH H) as (pre & mid & post & -> & ->).
    now exists (a :: pre), mid, post.
Qed.

Lemma parse_items_is_array (fuel : nat) :
  forall s acc v r, Json.parse_items fuel s acc = Some (v, r) ->
                    exists l, v = JArray l.
Proof.
  induction fuel as [|fuel IH]; intros s acc v r H; [discriminate|].
  cbn [Json.parse_items] in H. unfold Json.parse_items_body in H.
  destruct (Json.scan_once fuel s) as [[x r1]|]; [|discriminate].
  destruct (Json.skip_ws r1) as [|c r2]; [discriminate|].
  destruct (N.eqb c 93).
  - injection H as <- _. eauto.
  - destruct (N.eqb c 44); [|discriminate]. eapply IH; eassumption.
Qed.

(** What [json.loads] returns for a text that starts with an opening
    bracket is a list. *)
Lemma loads_bracket_is_array (r : str) (v : json) :
  Json.loads (91%N :: r) = Some v -> exists l, v = JArray l.
Proof.
  unfold Json.loads.
  change (Json.skip_ws (91%N :: r)) with (91%N :: r).
  generalize (2 * List.length (91%N :: r) + 2). intros fuel.
  destruct fuel as [|fuel]; [discriminate|].
  cbn [Json.scan_once]. unfold Json.scan_once_body.
  change (N.eqb 91 34) with false. change (N.eqb 91 123) with false.
  change (N.eqb 91 91) with true. cbv iota.
  destruct (Json.skip_ws r) as [|c r1]; [discriminate|].
  destruct (N.eqb c 93).
  - destruct (Json.skip_ws r1); [|discriminate]. intros [= <-]. eauto.
  - destruct (Json.parse_items fuel (c :: r1) []) as [[x r2]|] eqn:E;
      [|discriminate].
    destruct (Json.skip_ws r2); [|discriminate]. intros [= <-].
    eapply parse_items_is_array; eassumption.
Qed.

End ElementFacts.

(** C4 as the specification states it fails on an answer whose prose after the
    array holds brackets: the span from the first opening bracket to its
    matching closing bracket decodes to one element, yet the extractor,
    which takes the span up to the last closing bracket, returns none. *)
Lemma element_extractor_trailing_brackets :
  ~ In 91%N answer_lead
  /\ Json.loads (91%N :: answer_items ++ [93%N])
     = Some (JArray [JObject [(py "type", JString (py "button"))]])
  /\ elements_or_empty (element_extractor answer_with_brackets) = [].
Proof.
  repeat split; try reflexivity.
  vm_compute. intros H.
  repeat (destruct H as [H|H]; [discriminate H|]). exact H.
Qed.

(** C4, amended.  For every input text, the Element Extractor returns the
    decoding of the span from the first opening bracket to the last closing
    bracket after it, when that span is a well-formed array; it returns the
    empty sequence when the span does not decode and when there is no such
    span.  It returns a sequence in every case. *)
Theorem element_extractor_greedy_span (content : str) :
  (forall pre mid post,
      content = pre ++ 91%N :: mid ++ 93%N :: post ->
      ~ In 91%N pre -> ~ In 93%N post ->
      elements_or_empty (element_extractor content)
      = match Json.loads (91%N :: mid ++ [93%N]) with
        | Some (JArray elements) => elements
        | _ => []
        end)
  /\ ((forall pre mid post, content <> pre ++ 91%N :: mid ++ 93%N :: post) ->
      elements_or_empty (element_extractor content) = []).
Proof.
  split.
  - intros pre mid post -> Hpre Hpost. unfold element_extractor.
    rewrite ElementFacts.search_brackets_span by assumption.
    destruct (Json.loads (91%N :: mid ++ [93%N])) as [v|] eqn:E;
      [|reflexivity].
    destruct (ElementFacts.loads_bracket_is_array _ _ E) as [l ->].
    reflexivity.
  - intros Hnone. unfold element_extractor.
    destruct (Re.search_brackets content) as [g|] eqn:E; [|reflexivity].
    apply ElementFacts.search_brackets_inv in E
      as (pre & mid & post & Hc & _).
    exfalso. exact (Hnone _ _ _ Hc).
Qed.

Lemma element_extractor_greedy_span_witness :
  elements_or_empty (element_extractor answer_with_brackets)
  = match Json.loads (91%N :: (answer_items ++ py "] (see [1") ++ [93%N]) with
    | Some (JArray elements) => elements
    | _ => []
    end.
Proof.
  apply (proj1 (element_extractor_greedy_span answer_with_brackets)
               answer_lead (answer_items ++ py "] (see [1") (py ")")).
  - reflexivity.
  - vm_compute. intros H.
    repeat (destruct H as [H|H]; [discriminate H|]). exact H.
  - vm_compute. intros [H|H]; [discriminate H|exact H].
Defined.

(** ** Vision call, generation call and the handler of the button *)

Module OrchestratorFacts.

Lemma analyze_screenshot_run (image_data : str) (w : world) :
  analyze_screenshot_with_ai image_data w
  = (vision_delta (answers w (List.length (sent w))),
     mk_world (session w) (answers w)
              (sent w ++ [VisionRequest (vision_payload image_data)])
              (shown w ++
                 match analyze_response (answers w (List.length (sent w))) with
                 | inl e => [st_error_analysis_failed e]
                 | inr _ => []
                 end)).
Proof.
  unfold analyze_screenshot_with_ai, vision_delta, bind, requests_post.
  destruct (analyze_response (answers w (List.length (sent w)))); cbn.
  - reflexivity.
  - now rewrite app_nil_r.
Qed.

Lemma failed_vision_delta (o : http_outcome) : failed o -> vision_delta o = [].
Proof.
  destruct o as [cause|status text]; cbn; [reflexivity|].
  intros H. unfold vision_delta. cbn.
  destruct (Z.eqb_spec status 200); [contradiction|reflexivity].
Qed.


Lemma analyze_one_run (img : screenshot) (w : world) :
  let w' := snd (analyze_one img w) in
  answers w' = answers w
  /\ sent w' = sent w ++ [vision_request img]
  /\ generated_test (session w') = generated_test (session w)
  /\ validation_results (session w') = validation_results (session w)
  /\ screenshots (session w') = screenshots (session w)
  /\ detected_elements (session w')
     = detected_elements (session w)
         ++ vision_delta (answers w (List.length (sent w))).
Proof.
  unfold analyze_one, bind. rewrite analyze_screenshot_run.
  destruct (vision_delta (answers w (List.length (sent w)))); cbn;
    rewrite ?app_nil_r; tauto.
Qed.

Lemma analyze_screenshots_cons (img : screenshot) (imgs : list screenshot)
      (w : world) :
  analyze_screenshots (img :: imgs) w
  = analyze_screenshots imgs (snd (analyze_one img w)).
Proof.
  unfold analyze_screenshots. cbn [for_each]. unfold bind at 1.
  destruct (analyze_one img w) as [[] w1]. reflexivity.
Qed.

(** The state after the loop over the screenshots. *)
Lemma analyze_screenshots_run (imgs : list screenshot) :
  forall w w', snd (analyze_screenshots imgs w) = w' ->
    answers w' = answers w
    /\ sent w' = sent w ++ map vision_request imgs
    /\ generated_test (session w') = generated_test (session w)
    /\ validation_results (session w') = validation_results (session w)
    /\ screenshots (session w') = screenshots (session w)
    /\ detected_elements (session w')
       = detected_elements (session w)
           ++ flat_map (fun k => vision_delta (answers w k))
                       (seq (List.length (sent w)) (List.length imgs)).
Proof.
  induction imgs as [|img imgs IH]; intros w w' Hw'.
  - cbn in Hw'. subst w'. cbn. rewrite !app_nil_r. tauto.
  - rewrite analyze_screenshots_cons in Hw'.
    destruct (analyze_one_run img w) as (A1 & S1 & G1 & V1 & Sc1 & D1).
    destruct (IH _ _ Hw') as (A2 & S2 & G2 & V2 & Sc2 & D2).
    rewrite A2, S2, G2, V2, Sc2, D2, A1, S1, G1, V1, Sc1, D1.
    rewrite length_app. cbn [List.length map seq flat_map].
    rewrite Nat.add_1_r, <- !app_assoc.
    tauto.
Qed.

Lemma generate_run (test_name url description dom_html : str)
      (elements : list json) (w : world) :
  let r := generate_provar_test test_name url description dom_html elements w in
  session (snd r) = session w
  /\ answers (snd r) = answers w
  /\ sent (snd r)
     = sent w ++ [GenerationRequest test_name url description dom_html elements]
  /\ (failed (answers w (List.length (sent w))) -> fst r = None).
Proof.
  unfold generate_provar_test, bind, requests_post.
  destruct (answers w (List.length (sent w))) as [cause|status text]; cbn.
  - tauto.
  - destruct (Z.eqb_spec status 200) as [->|Hne].
    + destruct (generation_document text); cbn; tauto.
    + cbn. tauto.
Qed.

(** The analysis step of lines 529-534. *)
Lemma analysis_step_run (w w' : world) :
  snd ((if truthy (screenshots (session w))
           && negb (truthy (detected_elements (session w)))
        then show st_info_analyzing ;; analyze_screenshots (screenshots (session w))
        else ret tt) w) = w' ->
  answers w' = answers w
  /\ sent w'
     = sent w ++ (if truthy (screenshots (session w))
                     && negb (truthy (detected_elements (session w)))
                  then map vision_request (screenshots (session w)) else [])
  /\ List.length (sent w') = List.length (sent w) + vision_calls (session w)
  /\ generated_test (session w') = generated_test (session w)
  /\ validation_results (session w') = validation_results (session w)
  /\ (detected_elements (session w) = [] ->
      detected_elements (session w')
      = flat_map (fun k => vision_delta (answers w k))
                 (seq (List.length (sent w))
                      (List.length (screenshots (session w))))).
Proof.
  unfold vision_calls.
  destruct (truthy (screenshots (session w))
            && negb (truthy (detected_elements (session w)))) eqn:G.
  - unfold bind, show. intros H.
    apply analyze_screenshots_run in H.
    cbn [session answers sent shown] in H.
    destruct H as (A & S & Gt & V & _ & D).
    rewrite A, S, Gt, V, D, length_app, length_map.
    repeat split; try reflexivity.
    intros ->. reflexivity.
  - cbn. intros <-. rewrite app_nil_r, Nat.add_0_r.
    repeat split; try reflexivity.
    intros E. rewrite E in *. cbn in G. rewrite andb_true_r in G.
    destruct (screenshots (session w)); [reflexivity|discriminate].
Qed.

Lemma failed_generation_run
      (test_name url description dom_html : str) (w : world) :
  truthy test_name = true -> truthy description = true ->
  failed (answers w (List.length (sent w) + vision_calls (session w))) ->
  exists w3,
    on_generate_click test_name url description dom_html w
    = (tt, mk_world (session w3) (answers w3) (sent w3)
                    (shown w3 ++ [st_error_no_test_case]))
    /\ generated_test (session w3) = generated_test (session w)
    /\ validation_results (session w3) = validation_results (session w).
Proof.
  intros Hn Hd Hfail.
  unfold on_generate_click. rewrite Hn, Hd. cbn [negb orb].
  unfold bind at 1. unfold get_session at 1. cbv beta iota.
  unfold bind at 1.
  match goal with |- context [let (_, _) := ?m w in _] =>
    destruct (m w) as [[] w1] eqn:E end.
  apply (f_equal snd) in E. cbn [snd] in E.
  apply analysis_step_run in E as (A1 & S1 & L1 & G1 & V1 & _).
  unfold bind at 1. unfold show at 1. cbv beta iota.
  unfold bind at 1. unfold get_session at 1. cbv beta iota.
  cbn [session].
  unfold bind at 1.
  match goal with |- context [generate_provar_test ?a ?b ?c ?d ?e ?w2] =>
    pose proof (generate_run a b c d e w2) as R;
    destruct (generate_provar_test a b c d e w2) as [r w3] end.
  cbn [fst snd session answers sent shown] in R.
  destruct R as (R1 & R2 & R3 & R4).
  rewrite A1, L1 in R4. rewrite (R4 Hfail).
  exists w3. split; [reflexivity|]. now rewrite R1, G1, V1.
Qed.

(** What a click leaves behind when the entry guard lets it through. *)
Lemma click_run (test_name url description dom_html : str) (w w' : world) :
  truthy test_name = true -> truthy description = true ->
  snd (on_generate_click test_name url description dom_html w) = w' ->
  exists w1,
    snd ((if truthy (screenshots (session w))
             && negb (truthy (detected_elements (session w)))
          then show st_info_analyzing ;;
               analyze_screenshots (screenshots (session w))
          else ret tt) w) = w1
    /\ sent w' = sent w1 ++ [GenerationRequest test_name url description
                               dom_html (detected_elements (session w1))]
    /\ detected_elements (session w') = detected_elements (session w1).
Proof.
  intros Hn Hd.
  unfold on_generate_click. rewrite Hn, Hd. cbn [negb orb].
  unfold bind at 1. unfold get_session at 1. cbv beta iota.
  unfold bind at 1.
  match goal with |- context [let (_, _) := ?m w in _] =>
    destruct (m w) as [[] w1] eqn:E end.
  apply (f_equal snd) in E. cbn [snd] in E.
  unfold bind at 1. unfold show at 1. cbv beta iota.
  unfold bind at 1. unfold get_session at 1. cbv beta iota.
  cbn [session].
  unfold bind at 1.
  match goal with |- context [generate_provar_test ?a ?b ?c ?d ?e ?w2] =>
    pose proof (generate_run a b c d e w2) as R;
    destruct (generate_provar_test a b c d e w2) as [r w3] end.
  cbn [fst snd session answers sent shown] in R.
  destruct R as (R1 & R2 & R3 & _).
  intros <-. exists w1. split; [reflexivity|].
  destruct r as [xml|]; [destruct (truthy xml)|]; cbn; rewrite R1, R3; split; reflexivity.
Qed.

End OrchestratorFacts.

(** C5.  On a response whose status is not 200, [analyze_screenshot_with_ai]
    returns no elements and leaves the messages shown as they were: the
    Element Extractor is not reached, and nothing is reported to the
    caller.  (The specification asks for a reported failure, and
    [generate_provar_test] reports such a status with an "API Error"
    message.) *)
Theorem vision_error_status_unreported
        (image_data : str) (w : world) (status_code : Z) (text : str) :
  answers w (List.length (sent w)) = Response status_code text ->
  status_code <> 200%Z ->
  analyze_screenshot_with_ai image_data w
  = ([], mk_world (session w) (answers w)
                  (sent w ++ [VisionRequest (vision_payload image_data)])
                  (shown w)).
Proof.
  intros Ha Hs. rewrite OrchestratorFacts.analyze_screenshot_run.
  unfold vision_delta. rewrite Ha. cbn.
  destruct (Z.eqb_spec status_code 200); [contradiction|].
  cbn. now rewrite app_nil_r.
Qed.

Lemma vision_error_status_unreported_witness :
  analyze_screenshot_with_ai (data png_screenshot) world_500
  = ([], mk_world session_with_document endpoint_500
                  [VisionRequest (vision_payload (data png_screenshot))] []).
Proof.
  apply (vision_error_status_unreported
           (data png_screenshot) world_500 500
           (py "Internal Server Error")).
  - reflexivity.
  - discriminate.
Defined.

(** The generation call reports the same status. *)
Lemma generation_error_status_reported
      (test_name url description dom_html : str) (elements : list json)
      (w : world) (status_code : Z) (text : str) :
  answers w (List.length (sent w)) = Response status_code text ->
  status_code <> 200%Z ->
  generate_provar_test test_name url description dom_html elements w
  = (None,
     mk_world (session w) (answers w)
              (sent w ++ [GenerationRequest test_name url description dom_html
                                            elements])
              (shown w ++ [st_error_api status_code text])).
Proof.
  intros Ha Hs. unfold generate_provar_test, bind, requests_post.
  rewrite Ha. destruct (Z.eqb_spec status_code 200); [contradiction|].
  reflexivity.
Qed.

(** On a response with status 200 whose body decodes to a message with the
    text [content], the call returns what the Element Extractor makes of
    [content]. *)
Lemma vision_success_is_extraction
      (image_data : str) (w : world) (text : str) (data : json)
      (content : str) :
  answers w (List.length (sent w)) = Response 200 text ->
  response_json text = inr data ->
  content_text data = inr (JString content) ->
  fst (analyze_screenshot_with_ai image_data w)
  = elements_or_empty (element_extractor content).
Proof.
  intros Ha Hj Hc. rewrite OrchestratorFacts.analyze_screenshot_run.
  cbn [fst]. unfold vision_delta. rewrite Ha.
  cbn [analyze_response Z.eqb Pos.eqb]. rewrite Hj. cbn [try_bind].
  rewrite Hc. reflexivity.
Qed.

(** A transport failure of the vision call is reported, and yields no
    elements. *)
Lemma vision_transport_failure_reported
      (image_data : str) (w : world) (cause : str) :
  answers w (List.length (sent w)) = TransportFailure cause ->
  analyze_screenshot_with_ai image_data w
  = ([], mk_world (session w) (answers w)
                  (sent w ++ [VisionRequest (vision_payload image_data)])
                  (shown w ++ [st_error_analysis_failed
                                 (RequestException cause)])).
Proof.
  intros Ha. rewrite OrchestratorFacts.analyze_screenshot_run.
  unfold vision_delta. now rewrite Ha.
Qed.

(** C6.  Whatever the screenshot, the request that
    [analyze_screenshot_with_ai] posts for it declares the attachment as
    [image/jpeg]; so does the request for a PNG upload, which the
    specification wants tagged with the encoding of the image. *)
Theorem vision_payload_media_type_fixed (img_data : screenshot) (w : world) :
  exists payload,
    sent (snd (analyze_screenshot_with_ai (data img_data) w))
    = sent w ++ [VisionRequest payload]
    /\ attachment_media_type payload = inr (JString (py "image/jpeg")).
Proof.
  rewrite OrchestratorFacts.analyze_screenshot_run. cbn [snd sent].
  eexists. split; reflexivity.
Qed.

Example png_upload_tagged_jpeg :
  name png_screenshot = py "login.png"
  /\ attachment_media_type (vision_payload (data png_screenshot))
     = inr (JString (py "image/jpeg")).
Proof. split; reflexivity. Qed.

(** The rest of the payload is as specified: one user turn, made of the
    attachment and the instruction text. *)
Lemma vision_payload_single_turn (image_data : str) :
  exists image,
    getitem_key (vision_payload image_data) (py "messages")
    = inr (JArray
             [JObject
                [(py "role", JString (py "user"));
                 (py "content",
                  JArray
                    [image;
                     JObject [(py "type", JString (py "text"));
                              (py "text", JString vision_prompt)]])]])
    /\ getitem_key image (py "type") = inr (JString (py "image")).
Proof. eexists. split; reflexivity. Qed.

(** C7.  When the generation call of a click fails (the post raises, or the
    status of the response is not 200), the stored document and the stored
    validation result are after the click what they were before it, and the
    last message shown reports that no test case was generated. *)
Theorem failed_generation_keeps_document
        (test_name url description dom_html : str) (w : world) :
  truthy test_name = true -> truthy description = true ->
  failed (answers w (List.length (sent w) + vision_calls (session w))) ->
  let w' := snd (on_generate_click test_name url description dom_html w) in
  generated_test (session w') = generated_test (session w)
  /\ validation_results (session w') = validation_results (session w)
  /\ exists earlier, shown w' = earlier ++ [st_error_no_test_case].
Proof.
  intros Hn Hd Hfail.
  destruct (OrchestratorFacts.failed_generation_run test_name url description dom_html w Hn Hd Hfail)
    as (w3 & -> & G & V).
  cbn. repeat split; try assumption. now exists (shown w3).
Qed.

Lemma failed_generation_keeps_document_witness :
  let w' := snd (on_generate_click sample_name [] sample_description []
                                   world_500) in
  generated_test (session w') = generated_test (session world_500)
  /\ validation_results (session w') = validation_results (session world_500)
  /\ exists earlier, shown w' = earlier ++ [st_error_no_test_case].
Proof.
  apply (failed_generation_keeps_document
           sample_name [] sample_description [] world_500).
  - reflexivity.
  - reflexivity.
  - cbn. discriminate.
Defined.

(** C8.  A click with an empty test name or an empty description shows the
    missing-input message and does nothing else: no request is posted and
    the session is unchanged. *)
Theorem missing_input_stays_idle
        (test_name url description dom_html : str) (w : world) :
  test_name = [] \/ description = [] ->
  on_generate_click test_name url description dom_html w
  = (tt, mk_world (session w) (answers w) (sent w)
                  (shown w ++ [st_error_missing_input])).
Proof.
  intros [-> | ->]; unfold on_generate_click; cbn [truthy negb orb].
  - reflexivity.
  - rewrite orb_true_r. reflexivity.
Qed.

Lemma missing_input_stays_idle_witness :
  on_generate_click [] [] sample_description [] world_scenario_D
  = (tt, mk_world session_two_screenshots endpoint_scenario_D []
                  [st_error_missing_input]).
Proof.
  apply (missing_input_stays_idle [] [] sample_description []
                                  world_scenario_D).
  now left.
Defined.

(** C9 as the specification states it fails on a session that already holds
    detected elements: the queued screenshot is not analysed, and the only
    request of the click is the generation request. *)
Lemma no_vision_call_when_elements_present :
  screenshots (session world_500) = [png_screenshot]
  /\ sent (snd (on_generate_click sample_name [] sample_description []
                                  world_500))
     = [GenerationRequest sample_name [] sample_description []
                          [button_element]].
Proof. split; reflexivity. Qed.

(** C9, amended.  For every click that passes the entry guard in a session
    without detected elements, the requests posted are one vision request
    per queued screenshot, in upload order, and then the generation request
    with the accumulated elements; the accumulated elements are the
    concatenation, in that order, of what each vision answer yields; and a
    failed vision answer yields nothing. *)
Theorem vision_once_per_image
        (test_name url description dom_html : str) (w : world) :
  truthy test_name = true -> truthy description = true ->
  detected_elements (session w) = [] ->
  let w' := snd (on_generate_click test_name url description dom_html w) in
  sent w'
  = sent w ++ map vision_request (screenshots (session w))
      ++ [GenerationRequest test_name url description dom_html
                            (detected_elements (session w'))]
  /\ detected_elements (session w')
     = flat_map (fun k => vision_delta (answers w k))
                (seq (List.length (sent w))
                     (List.length (screenshots (session w))))
  /\ (forall k, failed (answers w k) -> vision_delta (answers w k) = []).
Proof.
  intros Hn Hd He w'.
  destruct (OrchestratorFacts.click_run test_name url description dom_html w w' Hn Hd eq_refl)
    as (w1 & E & S & D).
  fold w' in S, D.
  apply OrchestratorFacts.analysis_step_run in E as (_ & S1 & _ & _ & _ & D1).
  specialize (D1 He).
  rewrite S, D, S1, D1, He. cbn [truthy negb]. rewrite andb_true_r.
  split; [|split; [reflexivity|intros k; apply OrchestratorFacts.failed_vision_delta]].
  rewrite <- app_assoc. do 2 f_equal.
  destruct (screenshots (session w)); reflexivity.
Qed.

Lemma vision_once_per_image_witness :
  let w' := snd (on_generate_click sample_name [] sample_description []
                                   world_scenario_D) in
  sent w'
  = sent world_scenario_D
      ++ map vision_request (screenshots (session world_scenario_D))
      ++ [GenerationRequest sample_name [] sample_description []
                            (detected_elements (session w'))]
  /\ detected_elements (session w')
     = flat_map (fun k => vision_delta (answers world_scenario_D k))
                (seq (List.length (sent world_scenario_D))
                     (List.length (screenshots (session world_scenario_D))))
  /\ (forall k, failed (answers world_scenario_D k) ->
                vision_delta (answers world_scenario_D k) = []).
Proof.
  apply (vision_once_per_image sample_name [] sample_description []
                               world_scenario_D); reflexivity.
Defined.

(** Scenario D: the first of two vision calls fails, the second yields two
    elements; the session then holds these two elements, in their order. *)
Example scenario_D :
  detected_elements
    (session (snd (on_generate_click sample_name [] sample_description []
                                     world_scenario_D)))
  = [button_element; input_element].
Proof. vm_compute. reflexivity. Qed.

(** * Further properties of the page *)

(** ** Strings *)

Module MoreStrFacts.
Import StrFacts.

Lemma skipn_length_app (p r : str) : skipn (List.length p) (p ++ r) = r.
Proof. induction p as [|a p IH]; simpl; [reflexivity|exact IH]. Qed.

Lemma contains_middle (p a s b : str) :
  Str.contains p s = true -> Str.contains p (a ++ s ++ b) = true.
Proof.
  intros H. apply contains_inv in H as (x & y & ->).
  replace (a ++ (x ++ p ++ y) ++ b) with ((a ++ x) ++ p ++ (y ++ b))
    by (rewrite <- !app_assoc; reflexivity).
  apply contains_app.
Qed.

Lemma contains_self (s : str) : Str.contains s s = true.
Proof.
  rewrite <- (app_nil_r s) at 2. apply (contains_app [] s []).
Qed.

End MoreStrFacts.

Module StripFacts.

(** [lstrip] drops a run of whitespace. *)
Lemma lstrip_split (s : str) :
  exists ws, s = ws ++ Str.lstrip s /\ forallb Str.isspace ws = true.
Proof.
  induction s as [|c s (ws & E & F)]; [now exists []|].
  simpl. destruct (Str.isspace c) eqn:Hc.
  - exists (c :: ws). simpl. rewrite Hc, F. now rewrite E at 1.
  - now exists [].
Qed.

Lemma lstrip_head (s : str) :
  match Str.lstrip s with
  | [] => True
  | c :: _ => Str.isspace c = false
  end.
Proof.
  induction s as [|c s IH]; simpl; [exact I|].
  destruct (Str.isspace c) eqn:Hc; [exact IH|exact Hc].
Qed.

Lemma lstrip_fixed (s : str) :
  match s with [] => True | c :: _ => Str.isspace c = false end ->
  Str.lstrip s = s.
Proof. destruct s as [|c s]; simpl; [reflexivity|]. now intros ->. Qed.

Lemma lstrip_idem (s : str) : Str.lstrip (Str.lstrip s) = Str.lstrip s.
Proof. apply lstrip_fixed, lstrip_head. Qed.

Lemma rstrip_split (s : str) :
  exists ws, s = Str.rstrip s ++ ws /\ forallb Str.isspace ws = true.
Proof.
  unfold Str.rstrip. destruct (lstrip_split (rev s)) as (ws & E & F).
  exists (rev ws). split.
  - rewrite <- rev_app_distr, <- E. now rewrite rev_involutive.
  - rewrite forallb_forall in *. intros x Hx. apply F. now apply in_rev.
Qed.

Lemma rstrip_idem (s : str) : Str.rstrip (Str.rstrip s) = Str.rstrip s.
Proof.
  unfold Str.rstrip. now rewrite rev_involutive, lstrip_idem.
Qed.

(** [rstrip] keeps a first character that is not whitespace. *)
Lemma rstrip_head (s : str) :
  match s with [] => True | c :: _ => Str.isspace c = false end ->
  match Str.rstrip s with [] => True | c :: _ => Str.isspace c = false end.
Proof.
  destruct (rstrip_split s) as (ws & E & F).
  destruct s as [|c s]; intros H.
  - destruct (Str.rstrip []) eqn:R; [exact I|]. destruct ws; discriminate E.
  - destruct (Str.rstrip (c :: s)) as [|c' r] eqn:R.
    + exact I.
    + simpl in E. injection E as -> _. exact H.
Qed.

Lemma rstrip_last (s : str) :
  match rev (Str.rstrip s) with
  | [] => True
  | c :: _ => Str.isspace c = false
  end.
Proof.
  unfold Str.rstrip. rewrite rev_involutive. apply lstrip_head.
Qed.

Lemma strip_idem (s : str) : Str.strip (Str.strip s) = Str.strip s.
Proof.
  unfold Str.strip.
  rewrite (lstrip_fixed (Str.rstrip (Str.lstrip s))).
  - apply rstrip_idem.
  - apply rstrip_head, lstrip_head.
Qed.

Lemma strip_split (s : str) :
  exists l r, s = l ++ Str.strip s ++ r
              /\ forallb Str.isspace l = true /\ forallb Str.isspace r = true.
Proof.
  unfold Str.strip.
  destruct (lstrip_split s) as (l & El & Fl).
  destruct (rstrip_split (Str.lstrip s)) as (r & Er & Fr).
  exists l, r. repeat split; try assumption.
  rewrite <- Er. exact El.
Qed.

Lemma strip_ends (s : str) :
  match Str.strip s with [] => True | c :: _ => Str.isspace c = false end
  /\ match rev (Str.strip s) with
     | [] => True
     | c :: _ => Str.isspace c = false
     end.
Proof.
  unfold Str.strip. split.
  - apply rstrip_head, lstrip_head.
  - apply rstrip_last.
Qed.

End StripFacts.

(** ** Document Validator, continued *)

Module ValidatorMore.

Lemma is_valid_tags (xml_content : str) :
  is_valid (validate_provar_test xml_content) = true
  <-> Str.contains (py "<testCase") xml_content = true
      /\ Str.contains (py "<steps>") xml_content = true.
Proof.
  rewrite ValidatorFacts.validate_fields; cbn [is_valid].
  apply andb_true_iff.
Qed.

Lemma existsb_sf_action (action xml_content : str) :
  In action sf_actions -> Str.contains action xml_content = true ->
  existsb (fun a => Str.contains a xml_content) sf_actions = true.
Proof.
  intros Hin Hc. apply existsb_exists. now exists action.
Qed.

End ValidatorMore.

(** X1.  A document is valid exactly when the root open tag [<testCase]
    and the container tag [<steps>] both occur in it. *)
Theorem valid_iff_required_tags (xml_content : str) :
  is_valid (validate_provar_test xml_content) = true
  <-> Str.contains (py "<testCase") xml_content = true
      /\ Str.contains (py "<steps>") xml_content = true.
Proof.
  rewrite ValidatorFacts.validate_fields; cbn [is_valid].
  destruct (Str.contains (py "<testCase") xml_content);
    destruct (Str.contains (py "<steps>") xml_content);
    cbn; split; intros H; try (destruct H as [? ?]);
      (reflexivity || discriminate || (split; reflexivity)).
Qed.


(** X3.  Every valid document gets a step-count entry, with a count of at
    least one: the container tag that validity requires is counted as a
    step. *)
Theorem valid_document_has_step_count (xml_content : str) :
  is_valid (validate_provar_test xml_content) = true ->
  exists n, 1 <= n
            /\ In (msg_step_count n) (info (validate_provar_test xml_content)).
Proof.
  intros H. apply ValidatorMore.is_valid_tags in H as [_ H].
  assert (O : 1 <= Str.occurrences (py "<steps>") xml_content)
    by (apply StrFacts.occurrences_pos_contains; [discriminate|exact H]).
  pose proof (ValidatorFacts.step_counts_lower xml_content) as Sp.
  exists (Str.occurrences (py "<step") xml_content). split; [lia|].
  rewrite ValidatorFacts.validate_fields; cbn [info].
  rewrite !in_app_iff, !ValidatorFacts.in_when.
  right. right. left.
  rewrite ValidatorFacts.findall_step_length. split; [|reflexivity].
  destruct (Str.findall (py "<step") xml_content) eqn:E; [|reflexivity].
  pose proof (ValidatorFacts.findall_step_length xml_content) as L.
  rewrite E in L. simpl in L. lia.
Qed.

Lemma valid_document_has_step_count_witness :
  exists n, 1 <= n
            /\ In (msg_step_count n)
                  (info (validate_provar_test doc_one_container)).
Proof.
  apply (valid_document_has_step_count doc_one_container). reflexivity.
Defined.

(** X4.  A document in which [SfWait] occurs gets both the actions entry and
    the wait entry, and no warning about actions; likewise [SfVerify] gives
    the actions entry and the verification entry. *)
Theorem wait_and_verify_actions_counted_twice (xml_content : str) :
  let v := validate_provar_test xml_content in
  (Str.contains (py "SfWait") xml_content = true ->
   In msg_sf_actions (info v) /\ In msg_waits (info v)
   /\ ~ In msg_no_sf_actions (warnings v))
  /\ (Str.contains (py "SfVerify") xml_content = true ->
      In msg_sf_actions (info v) /\ In msg_assertions (info v)
      /\ ~ In msg_no_sf_actions (warnings v)).
Proof.
  cbv zeta. rewrite ValidatorFacts.validate_fields; cbn [info warnings].
  rewrite !in_app_iff, !ValidatorFacts.in_when.
  split; intros H.
  - rewrite (ValidatorMore.existsb_sf_action (py "SfWait") xml_content); [|cbn; tauto|exact H].
    rewrite H. cbn [negb orb]. repeat split; try tauto.
    intros [[_ E]|[[_ E]|[[E _]|[_ E]]]]; discriminate E.
  - rewrite (ValidatorMore.existsb_sf_action (py "SfVerify") xml_content); [|cbn; tauto|exact H].
    rewrite H. cbn [negb orb]. repeat split; try tauto.
    intros [[_ E]|[[_ E]|[[E _]|[_ E]]]]; discriminate E.
Qed.

Lemma wait_and_verify_actions_counted_twice_witness :
  let v := validate_provar_test doc_with_wait_and_verify in
  (In msg_sf_actions (info v) /\ In msg_waits (info v)
   /\ ~ In msg_no_sf_actions (warnings v))
  /\ (In msg_sf_actions (info v) /\ In msg_assertions (info v)
      /\ ~ In msg_no_sf_actions (warnings v)).
Proof.
  split.
  - apply (proj1 (wait_and_verify_actions_counted_twice
                    doc_with_wait_and_verify)).
    reflexivity.
  - apply (proj2 (wait_and_verify_actions_counted_twice
                    doc_with_wait_and_verify)).
    reflexivity.
Defined.

(** X5.  Validity survives any text put before and after a document: the
    result is valid again, without errors. *)
Theorem validity_survives_embedding (xml_content before after : str) :
  is_valid (validate_provar_test xml_content) = true ->
  is_valid (validate_provar_test (before ++ xml_content ++ after)) = true
  /\ errors (validate_provar_test (before ++ xml_content ++ after)) = [].
Proof.
  intros H. apply ValidatorMore.is_valid_tags in H as [H1 H2].
  rewrite ValidatorFacts.validate_fields; cbn [is_valid errors].
  rewrite (MoreStrFacts.contains_middle _ before _ after H1),
          (MoreStrFacts.contains_middle _ before _ after H2).
  split; reflexivity.
Qed.

Lemma validity_survives_embedding_witness :
  is_valid (validate_provar_test
              (sample_prose ++ doc_one_container ++ sample_trailer)) = true
  /\ errors (validate_provar_test
               (sample_prose ++ doc_one_container ++ sample_trailer)) = [].
Proof.
  apply (validity_survives_embedding doc_one_container sample_prose
                                     sample_trailer).
  reflexivity.
Defined.

(** ** Document Extractor, continued *)

Module DocumentMore.
Import StrFacts.

Lemma lazy_until_inv (closer s g : str) :
  Re.lazy_until closer s = Some g -> exists b, s = g ++ closer ++ b.
Proof.
  revert g. induction s as [|c s IH]; simpl; intros g H.
  - destruct (Str.startswith closer []) eqn:E; [|discriminate].
    injection H as <-. apply startswith_nil_r in E. subst closer. now exists [].
  - destruct (Str.startswith closer (c :: s)) eqn:E.
    + injection H as <-. apply startswith_inv in E as [r ->]. now exists r.
    + destruct (Re.lazy_until closer s) as [g'|]; [|discriminate].
      injection H as <-. destruct (IH _ eq_refl) as [b ->]. now exists b.
Qed.

(** A match of a fence pattern: opener, group, closer, in this order. *)
Lemma search_fenced_inv (opener closer s g : str) :
  Re.search_fenced opener closer s = Some g ->
  exists a b, s = a ++ opener ++ g ++ closer ++ b.
Proof.
  induction s as [|c s IH]; [discriminate|].
  cbn [Re.search_fenced].
  assert (Later : Re.search_fenced opener closer s = Some g ->
                  exists a b, c :: s = a ++ opener ++ g ++ closer ++ b).
  { intros H. destruct (IH H) as (a & b & ->). now exists (c :: a), b. }
  destruct (Str.startswith opener (c :: s)) eqn:E; [|exact Later].
  apply startswith_inv in E as [r Hr]. rewrite Hr, MoreStrFacts.skipn_length_app.
  destruct (Re.lazy_until closer r) as [g'|] eqn:L.
  - intros [= <-]. apply lazy_until_inv in L as [b ->]. now exists [], b.
  - rewrite <- Hr. exact Later.
Qed.

Lemma search_fenced_needs_closer (opener closer s : str) :
  Str.contains closer s = false -> Re.search_fenced opener closer s = None.
Proof.
  intros H. destruct (Re.search_fenced opener closer s) as [g|] eqn:E;
    [|reflexivity].
  apply search_fenced_inv in E as (a & b & ->).
  replace (a ++ opener ++ g ++ closer ++ b)
    with ((a ++ opener ++ g) ++ closer ++ b) in H
    by (rewrite <- !app_assoc; reflexivity).
  rewrite contains_app in H. discriminate.
Qed.

Ltac clash H :=
  apply startswith_inv in H as [? H]; cbn in H;
  injection H; intros; subst; discriminate.

Lemma plain_open_no_straddle (p x : str) :
  Str.startswith fence_open (p ++ fence_open ++ x) = true ->
  p = [] \/ Str.startswith fence_open p = true.
Proof.
  intros H.
  destruct p as [|a1 [|a2 [|a3 [|a4 p]]]]; [now left| | | |];
    try (exfalso; clash H).
  right. exact H.
Qed.

Lemma search_fenced_plain (p m x : str) :
  Str.contains fence_open p = false ->
  Str.contains fence_close m = false ->
  Re.search_fenced fence_open fence_close
    (p ++ fence_open ++ m ++ fence_close ++ x) = Some m.
Proof.
  intros Hp Hm. induction p as [|a p IH].
  - cbn [app].
    change (fence_open ++ m ++ fence_close ++ x)
      with (96%N :: skipn 1 fence_open ++ m ++ fence_close ++ x)%list.
    cbn [Re.search_fenced].
    change (96%N :: skipn 1 fence_open ++ m ++ fence_close ++ x)
      with (fence_open ++ m ++ fence_close ++ x).
    rewrite startswith_app, MoreStrFacts.skipn_length_app.
    now rewrite DocumentFacts.lazy_until_close.
  - apply contains_false_cons in Hp as [H1 H2].
    cbn [app Re.search_fenced].
    destruct (Str.startswith fence_open
                (a :: p ++ fence_open ++ m ++ fence_close ++ x)) eqn:E.
    + apply (plain_open_no_straddle (a :: p)) in E as [E|E];
        [discriminate|congruence].
    + now apply IH.
Qed.

End DocumentMore.

(** X6.  A text without a closing fence marker (a line break followed by
    three backquotes) is returned trimmed and otherwise whole, an opening
    fence marker included. *)
Theorem unclosed_fence_is_kept (xml_content : str) :
  Str.contains fence_close xml_content = false ->
  document_extractor xml_content = Str.strip xml_content.
Proof.
  intros H. unfold document_extractor.
  now rewrite !DocumentMore.search_fenced_needs_closer.
Qed.

Lemma unclosed_fence_is_kept_witness :
  document_extractor truncated_answer = Str.strip truncated_answer.
Proof.
  apply (unclosed_fence_is_kept truncated_answer). reflexivity.
Defined.

(** X7.  From an answer without a labelled opener, whose first unlabelled
    opener is followed by a markup text without closing marker and then by
    the closing marker, the extractor returns that markup text, trimmed. *)
Theorem generic_fence_is_stripped (prose markup trailer : str) :
  let answer := prose ++ fence_open ++ markup ++ fence_close ++ trailer in
  Str.contains fence_xml_open answer = false ->
  Str.contains fence_open prose = false ->
  Str.contains fence_close markup = false ->
  document_extractor answer = Str.strip markup.
Proof.
  intros answer Hx Hp Hm. unfold document_extractor.
  rewrite (DocumentFacts.search_fenced_absent _ _ _ Hx).
  unfold answer. now rewrite DocumentMore.search_fenced_plain.
Qed.

Lemma generic_fence_is_stripped_witness :
  document_extractor
    (sample_prose ++ fence_open ++ sample_markup ++ fence_close
       ++ sample_trailer)
  = Str.strip sample_markup.
Proof.
  apply (generic_fence_is_stripped sample_prose sample_markup sample_trailer);
    reflexivity.
Defined.

(** X8.  What the extractor returns is trimmed: trimming it again changes
    nothing, and neither its first nor its last character is whitespace. *)
Theorem extracted_document_is_trimmed (xml_content : str) :
  let document := document_extractor xml_content in
  Str.strip document = document
  /\ match document with
     | [] => True
     | c :: _ => Str.isspace c = false
     end
  /\ match rev document with
     | [] => True
     | c :: _ => Str.isspace c = false
     end.
Proof.
  unfold document_extractor. cbv zeta.
  split; [apply StripFacts.strip_idem|apply StripFacts.strip_ends].
Qed.

(** X9.  What the extractor returns occurs in the answer as it stands: the
    extractor only cuts. *)
Theorem extracted_document_is_part_of_answer (xml_content : str) :
  Str.contains (document_extractor xml_content) xml_content = true.
Proof.
  unfold document_extractor.
  set (inner := match Re.search_fenced fence_xml_open fence_close xml_content
                with
                | Some g => g
                | None =>
                    match Re.search_fenced fence_open fence_close xml_content
                    with
                    | Some g => g
                    | None => xml_content
                    end
                end).
  assert (Hin : Str.contains inner xml_content = true).
  { unfold inner.
    destruct (Re.search_fenced fence_xml_open fence_close xml_content)
      as [g|] eqn:E1.
    - apply DocumentMore.search_fenced_inv in E1 as (a & b & ->).
      replace (a ++ fence_xml_open ++ g ++ fence_close ++ b)
        with ((a ++ fence_xml_open) ++ g ++ (fence_close ++ b))
        by (rewrite <- !app_assoc; reflexivity).
      apply StrFacts.contains_app.
    - destruct (Re.search_fenced fence_open fence_close xml_content)
        as [g|] eqn:E2.
      + apply DocumentMore.search_fenced_inv in E2 as (a & b & ->).
        replace (a ++ fence_open ++ g ++ fence_close ++ b)
          with ((a ++ fence_open) ++ g ++ (fence_close ++ b))
          by (rewrite <- !app_assoc; reflexivity).
        apply StrFacts.contains_app.
      + apply MoreStrFacts.contains_self. }
  clearbody inner.
  apply StrFacts.contains_inv in Hin as (a & b & ->).
  destruct (StripFacts.strip_split inner) as (l & r & E & _).
  rewrite E at 2.
  replace (a ++ (l ++ Str.strip inner ++ r) ++ b)
    with ((a ++ l) ++ Str.strip inner ++ (r ++ b))
    by (rewrite <- !app_assoc; reflexivity).
  apply StrFacts.contains_app.
Qed.

(** ** Vision call and generation call, continued *)

Module PipelineFacts.

Lemma search_brackets_needs_both (content : str) :
  ~ In 91%N content \/ ~ In 93%N content ->
  Re.search_brackets content = None.
Proof.
  intros H. destruct (Re.search_brackets content) as [g|] eqn:E;
    [|reflexivity].
  apply ElementFacts.search_brackets_inv in E as (pre & mid & post & -> & _).
  exfalso. destruct H as [H|H]; apply H; rewrite in_app_iff; right.
  - now left.
  - right. rewrite in_app_iff. right. now left.
Qed.

(** What the generation call leaves behind, whatever the answer. *)
Lemma generate_frame (test_name url description dom_html : str)
      (elements : list json) (w : world) :
  let r := generate_provar_test test_name url description dom_html elements w in
  session (snd r) = session w
  /\ answers (snd r) = answers w
  /\ sent (snd r)
     = sent w ++ [GenerationRequest test_name url description dom_html elements]
  /\ match fst r with
     | None => exists e, is_error e = true /\ shown (snd r) = shown w ++ [e]
     | Some xml => shown (snd r) = shown w /\ Str.strip xml = xml
     end.
Proof.
  unfold generate_provar_test, bind, requests_post.
  destruct (answers w (List.length (sent w))) as [cause|status text]; cbn.
  - repeat split. eexists; split; [|reflexivity]; reflexivity.
  - destruct (Z.eqb_spec status 200) as [->|Hne].
    + destruct (generation_document text) as [e|xml] eqn:G; cbn.
      * repeat split. eexists; split; [|reflexivity]; reflexivity.
      * repeat split.
        unfold generation_document, try_bind in G.
        destruct (response_json text); [discriminate|].
        destruct (content_text j); [discriminate|].
        destruct (expect_str j0); [discriminate|].
        injection G as <-. unfold document_extractor.
        apply StripFacts.strip_idem.
    + cbn. repeat split. eexists; split; [|reflexivity]; reflexivity.
Qed.

(** A click that passes the entry guard, step by step. *)
Lemma click_steps (test_name url description dom_html : str) (w : world) :
  truthy test_name = true -> truthy description = true ->
  let w1 := snd (analysis_step w) in
  let r := generate_provar_test test_name url description dom_html
             (detected_elements (session w1))
             (mk_world (session w1) (answers w1) (sent w1)
                       (shown w1 ++ [st_info_generating])) in
  on_generate_click test_name url description dom_html w
  = (tt,
     match fst r with
     | Some (c :: x) =>
         mk_world
           (mk_session (Some (c :: x)) (detected_elements (session (snd r)))
                       (Some (validate_provar_test (c :: x)))
                       (screenshots (session (snd r))))
           (answers (snd r)) (sent (snd r))
           (shown (snd r)
              ++ [st_info_validating; st_success_generated; st_balloons])
     | _ =>
         mk_world (session (snd r)) (answers (snd r)) (sent (snd r))
                  (shown (snd r) ++ [st_error_no_test_case])
     end).
Proof.
  intros Hn Hd. cbv zeta. unfold analysis_step.
  unfold on_generate_click. rewrite Hn, Hd. cbn [negb orb].
  unfold bind at 1. unfold get_session at 1. cbv beta iota.
  unfold bind at 1.
  match goal with |- context [let (_, _) := ?m w in _] =>
    destruct (m w) as [[] w1] end.
  cbn [snd].
  unfold bind at 1. unfold show at 1. cbv beta iota.
  unfold bind at 1. unfold get_session at 1. cbv beta iota.
  cbn [session].
  unfold bind at 1.
  match goal with |- context [generate_provar_test ?a ?b ?c ?d ?e ?w2] =>
    destruct (generate_provar_test a b c d e w2) as [r w3] end.
  cbn [fst snd].
  destruct r as [[|c x]|]; cbn; try reflexivity.
  unfold show. cbn. rewrite <- !app_assoc. reflexivity.
Qed.

Lemma analysis_step_frame (w : world) :
  let w1 := snd (analysis_step w) in
  answers w1 = answers w
  /\ generated_test (session w1) = generated_test (session w)
  /\ validation_results (session w1) = validation_results (session w)
  /\ screenshots (session w1) = screenshots (session w)
  /\ List.length (sent w1) = List.length (sent w) + vision_calls (session w)
  /\ (detected_elements (session w) <> [] -> w1 = w).
Proof.
  cbv zeta. unfold analysis_step, vision_calls.
  destruct (truthy (screenshots (session w))
            && negb (truthy (detected_elements (session w)))) eqn:G.
  - unfold bind, show.
    match goal with |- context [analyze_screenshots ?l ?w0] =>
      destruct (OrchestratorFacts.analyze_screenshots_run l w0 _ eq_refl)
        as (A & S & Gt & V & Sc & _) end.
    cbn [session answers sent shown] in *.
    rewrite A, S, Gt, V, Sc, length_app, length_map.
    repeat split; try reflexivity.
    intros Hne. apply andb_true_iff in G as [_ G].
    destruct (detected_elements (session w)); [contradiction|discriminate].
  - cbn. rewrite Nat.add_0_r. repeat split.
Qed.

End PipelineFacts.

(** X10.  Whatever the endpoint does, [analyze_screenshot_with_ai] leaves
    the session alone, posts exactly one request, and shows nothing or one
    analysis-failed message, in which case it returns no elements. *)
Theorem vision_call_posts_once (image_data : str) (w : world) :
  let r := analyze_screenshot_with_ai image_data w in
  session (snd r) = session w
  /\ answers (snd r) = answers w
  /\ sent (snd r) = sent w ++ [VisionRequest (vision_payload image_data)]
  /\ (shown (snd r) = shown w
      \/ exists e, shown (snd r) = shown w ++ [st_error_analysis_failed e]
                   /\ fst r = []).
Proof.
  cbv zeta. rewrite OrchestratorFacts.analyze_screenshot_run.
  cbn [fst snd session answers sent shown]. repeat split.
  unfold vision_delta.
  destruct (analyze_response (answers w (List.length (sent w)))) as [e|l].
  - right. now exists e.
  - left. apply app_nil_r.
Qed.

(** X11.  With status 200, a body that is not JSON, a body without the key
    [content], a body with an empty [content], and an answer whose bracketed
    span does not decode each make the vision call return no elements and
    show the analysis-failed message with the exception met. *)
Theorem vision_malformed_answer_is_reported
        (image_data : str) (w : world) (text : str) :
  answers w (List.length (sent w)) = Response 200 text ->
  let failure e :=
    ([], mk_world (session w) (answers w)
                  (sent w ++ [VisionRequest (vision_payload image_data)])
                  (shown w ++ [st_error_analysis_failed e])) in
  (Json.loads text = None ->
   analyze_screenshot_with_ai image_data w = failure JSONDecodeError)
  /\ (forall members,
         Json.loads text = Some (JObject members) ->
         Json.dict_get (py "content") members = None ->
         analyze_screenshot_with_ai image_data w = failure KeyError)
  /\ (forall members,
         Json.loads text = Some (JObject members) ->
         Json.dict_get (py "content") members = Some (JArray []) ->
         analyze_screenshot_with_ai image_data w = failure IndexError)
  /\ (forall data content span,
         response_json text = inr data ->
         content_text data = inr (JString content) ->
         Re.search_brackets content = Some span ->
         Json.loads span = None ->
         analyze_screenshot_with_ai image_data w = failure JSONDecodeError).
Proof.
  intros Ha. cbv zeta.
  rewrite OrchestratorFacts.analyze_screenshot_run. unfold vision_delta.
  rewrite Ha. cbn [analyze_response Z.eqb Pos.eqb].
  repeat split.
  - intros H. unfold response_json. rewrite H. reflexivity.
  - intros members H1 H2. unfold response_json. rewrite H1.
    cbn [try_bind]. unfold content_text. cbn [getitem_key].
    rewrite H2. reflexivity.
  - intros members H1 H2. unfold response_json. rewrite H1.
    cbn [try_bind]. unfold content_text. cbn [getitem_key].
    rewrite H2. reflexivity.
  - intros data content span H1 H2 H3 H4. rewrite H1. cbn [try_bind].
    rewrite H2. cbn. unfold element_extractor. rewrite H3, H4. reflexivity.
Qed.

Lemma vision_malformed_answer_is_reported_witness :
  analyze_screenshot_with_ai (data png_screenshot) (world_200 body_not_json)
  = ([], mk_world initial_session (endpoint_200 body_not_json)
                  [VisionRequest (vision_payload (data png_screenshot))]
                  [st_error_analysis_failed JSONDecodeError]).
Proof.
  apply (proj1 (vision_malformed_answer_is_reported
                  (data png_screenshot) (world_200 body_not_json)
                  body_not_json eq_refl)).
  reflexivity.
Defined.

(** X12.  With status 200 and an answer text in which no opening bracket or
    no closing bracket occurs, the vision call returns no elements and shows
    nothing. *)
Theorem vision_answer_without_array_is_silent
        (image_data : str) (w : world) (text : str) (data : json)
        (content : str) :
  answers w (List.length (sent w)) = Response 200 text ->
  response_json text = inr data ->
  content_text data = inr (JString content) ->
  ~ In 91%N content \/ ~ In 93%N content ->
  analyze_screenshot_with_ai image_data w
  = ([], mk_world (session w) (answers w)
                  (sent w ++ [VisionRequest (vision_payload image_data)])
                  (shown w)).
Proof.
  intros Ha H1 H2 Hb.
  rewrite OrchestratorFacts.analyze_screenshot_run. unfold vision_delta.
  rewrite Ha. cbn [analyze_response Z.eqb Pos.eqb].
  rewrite H1. cbn [try_bind]. rewrite H2. cbn.
  unfold element_extractor.
  rewrite (PipelineFacts.search_brackets_needs_both _ Hb). cbn.
  now rewrite app_nil_r.
Qed.

Lemma vision_answer_without_array_is_silent_witness :
  analyze_screenshot_with_ai (data png_screenshot) (world_200 body_prose_only)
  = ([], mk_world initial_session (endpoint_200 body_prose_only)
                  [VisionRequest (vision_payload (data png_screenshot))] []).
Proof.
  apply (vision_answer_without_array_is_silent
           (data png_screenshot) (world_200 body_prose_only) body_prose_only
           (JObject [(py "content",
                      JArray [JObject
                                [(py "type", JString (py "text"));
                                 (py "text",
                                  JString
                                    (py "No interactive elements are visible."))]])])
           (py "No interactive elements are visible.")).
  - reflexivity.
  - reflexivity.
  - reflexivity.
  - left. vm_compute. intros H.
    repeat (destruct H as [H|H]; [discriminate H|]). exact H.
Defined.

(** X13.  Whatever the endpoint does, [generate_provar_test] leaves the
    session alone and posts exactly one request; when it returns no
    document it has shown exactly one error message, and when it returns a
    document it has shown nothing and the document is trimmed. *)
Theorem generation_failure_is_always_reported
        (test_name url description dom_html : str) (elements : list json)
        (w : world) :
  let r := generate_provar_test test_name url description dom_html elements w in
  session (snd r) = session w
  /\ sent (snd r)
     = sent w ++ [GenerationRequest test_name url description dom_html elements]
  /\ match fst r with
     | None => exists e, is_error e = true /\ shown (snd r) = shown w ++ [e]
     | Some xml => shown (snd r) = shown w /\ Str.strip xml = xml
     end.
Proof.
  destruct (PipelineFacts.generate_frame test_name url description dom_html
              elements w) as (S & _ & R & M).
  cbv zeta. repeat split; assumption.
Qed.

(** ** The handlers of the page *)

Module PageFacts.

(** The document and its validation after a click: untouched, or set
    together. *)
Lemma click_document (test_name url description dom_html : str) (w : world) :
  let s' := session (snd (on_generate_click test_name url description
                                            dom_html w)) in
  (generated_test s' = generated_test (session w)
   /\ validation_results s' = validation_results (session w))
  \/ exists xml,
       xml <> [] /\ Str.strip xml = xml
       /\ generated_test s' = Some xml
       /\ validation_results s' = Some (validate_provar_test xml).
Proof.
  cbv zeta.
  destruct (truthy test_name) eqn:Hn; [destruct (truthy description) eqn:Hd|].
  - rewrite (PipelineFacts.click_steps _ url _ dom_html w Hn Hd). cbn [snd].
    destruct (PipelineFacts.analysis_step_frame w) as (_ & G & V & _).
    set (w1 := snd (analysis_step w)) in *.
    match goal with |- context [generate_provar_test ?a ?b ?c ?d ?e ?w2] =>
      destruct (PipelineFacts.generate_frame a b c d e w2) as (S & _ & _ & M);
      destruct (generate_provar_test a b c d e w2) as [r w3] end.
    cbn [fst snd session] in *.
    destruct r as [[|c x]|]; cbn [session generated_test validation_results].
    + left. rewrite S. now split.
    + right. exists (c :: x). destruct M as [_ M].
      repeat split; [discriminate|exact M].
    + left. rewrite S. now split.
  - left. unfold on_generate_click. rewrite Hn, Hd. now split.
  - left. unfold on_generate_click. rewrite Hn. now split.
Qed.

(** The upload step writes [screenshots] and nothing else. *)
Lemma append_screenshots_frame (files : list uploaded_file) :
  forall w,
    let r := append_screenshots files w in
    generated_test (session (snd r)) = generated_test (session w)
    /\ detected_elements (session (snd r)) = detected_elements (session w)
    /\ validation_results (session (snd r)) = validation_results (session w)
    /\ answers (snd r) = answers w /\ sent (snd r) = sent w
    /\ shown (snd r) = shown w.
Proof.
  induction files as [|f files IH]; intros w; cbn [append_screenshots].
  - cbn. tauto.
  - destruct (upload_opens f); [|cbn; tauto].
    unfold bind at 1. unfold get_session at 1. cbv beta iota.
    unfold bind at 1.
    match goal with |- context [set_screenshots ?l w] =>
      specialize (IH (snd (set_screenshots l w)));
      destruct (set_screenshots l w) as [[] w1] eqn:E end.
    cbv zeta in IH. cbn [snd] in IH.
    injection E as <-. exact IH.
Qed.

Lemma process_uploads_frame (files : list uploaded_file) (w : world) :
  let r := process_uploads files w in
  generated_test (session (snd r)) = generated_test (session w)
  /\ detected_elements (session (snd r)) = detected_elements (session w)
  /\ validation_results (session (snd r)) = validation_results (session w)
  /\ answers (snd r) = answers w /\ sent (snd r) = sent w
  /\ shown (snd r) = shown w.
Proof.
  unfold process_uploads. destruct (truthy files); [|cbn; tauto].
  unfold set_screenshots, bind, get_session, put_session. cbv beta iota.
  match goal with |- context [append_screenshots files ?w1] =>
    pose proof (append_screenshots_frame files w1) as F end.
  exact F.
Qed.

Lemma generate_on_200 (test_name url description dom_html : str)
      (elements : list json) (w : world) (text xml : str) :
  answers w (List.length (sent w)) = Response 200 text ->
  generation_document text = inr xml ->
  generate_provar_test test_name url description dom_html elements w
  = (Some xml,
     mk_world (session w) (answers w)
              (sent w ++ [GenerationRequest test_name url description dom_html
                                            elements])
              (shown w)).
Proof.
  intros Ha Hg. unfold generate_provar_test, bind, requests_post.
  rewrite Ha. cbn [Z.eqb Pos.eqb]. rewrite Hg. reflexivity.
Qed.

(** The answer to the generation request of a click. *)
Lemma generation_answer (w : world) :
  let w1 := snd (analysis_step w) in
  answers w1 (List.length (sent w1))
  = answers w (List.length (sent w) + vision_calls (session w)).
Proof.
  destruct (PipelineFacts.analysis_step_frame w) as (A & _ & _ & _ & L & _).
  cbv zeta. now rewrite A, L.
Qed.

Lemma perform_keeps_document_state (a : action) (w : world) :
  document_state_ok (session w) ->
  document_state_ok (session (snd (perform a w))).
Proof.
  intros Hok. destruct a as [files|n u d h| |]; cbn [perform].
  - unfold bind.
    destruct (process_uploads_frame files w) as (G & _ & V & _).
    destruct (process_uploads files w) as [b w1]. unfold ret. cbn [snd] in *.
    unfold document_state_ok in *. now rewrite G, V.
  - destruct (click_document n u d h w) as [[G V]|(xml & Hne & Ht & G & V)];
      unfold document_state_ok in *; rewrite G, V; [exact Hok|].
    now repeat split.
  - exact I.
  - unfold on_generate_new, bind, get_session. cbv beta iota.
    destruct (document_stored (session w)); [exact I|exact Hok].
Qed.

End PageFacts.

Module UploadFacts.

Lemma append_screenshots_cons (f : uploaded_file)
      (files : list uploaded_file) (w : world) :
  append_screenshots (f :: files) w
  = if upload_opens f
    then append_screenshots files
           (mk_world (mk_session (generated_test (session w))
                                 (detected_elements (session w))
                                 (validation_results (session w))
                                 (screenshots (session w) ++ [screenshot_of f]))
                     (answers w) (sent w) (shown w))
    else (false, w).
Proof.
  cbn [append_screenshots]. destruct (upload_opens f); reflexivity.
Qed.

Lemma append_screenshots_run (files : list uploaded_file) :
  forall w,
    screenshots (session (snd (append_screenshots files w)))
    = screenshots (session w) ++ map screenshot_of (opened_prefix files)
    /\ fst (append_screenshots files w) = forallb upload_opens files.
Proof.
  induction files as [|f files IH]; intros w.
  - cbn. now rewrite app_nil_r.
  - rewrite append_screenshots_cons. cbn [opened_prefix forallb].
    destruct (upload_opens f).
    + match goal with |- context [append_screenshots files ?w1] =>
        destruct (IH w1) as [S F] end.
      rewrite S, F. cbn. now rewrite <- app_assoc.
    + cbn. now rewrite app_nil_r.
Qed.

End UploadFacts.

(** X14.  Uploads, clicks on the three buttons, in any number and order, with
    any answers of the endpoint, keep the stored document and the stored
    validation together: there is neither, or the validation is the one of
    the stored document, which is a non-empty trimmed text. *)
Theorem document_and_validation_stay_together
        (actions : list action) (w : world) :
  document_state_ok (session w) ->
  document_state_ok (session (snd (for_each actions perform w))).
Proof.
  revert w. induction actions as [|a actions IH]; intros w Hok.
  - exact Hok.
  - cbn [for_each]. unfold bind.
    pose proof (PageFacts.perform_keeps_document_state a w Hok) as H1.
    destruct (perform a w) as [[] w1]. cbn [snd] in H1.
    now apply IH.
Qed.

Lemma document_and_validation_stay_together_witness :
  document_state_ok
    (session
       (snd (for_each
               [Upload [good_upload];
                ClickGenerate sample_name [] sample_description [];
                ClickGenerateNew;
                ClickGenerate sample_name [] sample_description [];
                ClickClearAll]
               perform (world_200 body_fenced_document)))).
Proof.
  apply (document_and_validation_stay_together
           [Upload [good_upload];
            ClickGenerate sample_name [] sample_description [];
            ClickGenerateNew;
            ClickGenerate sample_name [] sample_description [];
            ClickClearAll]
           (world_200 body_fenced_document)).
  simpl. exact I.
Defined.

(** X15.  When the generation call of a click is answered with status 200 and
    a document that is empty once extracted, the click is handled as a
    failure: the stored document and validation are unchanged, and after the
    generating message only the no-test-case message is shown. *)
Theorem blank_document_counts_as_failure
        (test_name url description dom_html : str) (w : world) (text : str) :
  truthy test_name = true -> truthy description = true ->
  answers w (List.length (sent w) + vision_calls (session w))
  = Response 200 text ->
  generation_document text = inr [] ->
  let w' := snd (on_generate_click test_name url description dom_html w) in
  generated_test (session w') = generated_test (session w)
  /\ validation_results (session w') = validation_results (session w)
  /\ exists earlier,
       shown w' = earlier ++ [st_info_generating; st_error_no_test_case].
Proof.
  intros Hn Hd Ha Hg. cbv zeta.
  rewrite (PipelineFacts.click_steps _ url _ dom_html w Hn Hd). cbn [snd].
  destruct (PipelineFacts.analysis_step_frame w) as (_ & G & V & _).
  pose proof (PageFacts.generation_answer w) as A. cbv zeta in A.
  rewrite Ha in A.
  set (w1 := snd (analysis_step w)) in *.
  erewrite PageFacts.generate_on_200; [|exact A|exact Hg].
  cbn. rewrite G, V. repeat split.
  exists (shown w1). now rewrite <- app_assoc.
Qed.

Lemma blank_document_counts_as_failure_witness :
  let w' := snd (on_generate_click sample_name [] sample_description []
                                   (world_200 body_blank_document)) in
  generated_test (session w') = None
  /\ validation_results (session w') = None
  /\ exists earlier,
       shown w' = earlier ++ [st_info_generating; st_error_no_test_case].
Proof.
  apply (blank_document_counts_as_failure
           sample_name [] sample_description []
           (world_200 body_blank_document) body_blank_document);
    reflexivity.
Defined.

(** X16.  When the generation call of a click is answered with status 200 and
    a non-empty document, the session stores this document together with its
    validation, and the click ends with the validating message, the success
    message and the balloons. *)
Theorem successful_click_stores_validated_document
        (test_name url description dom_html : str) (w : world)
        (text xml : str) :
  truthy test_name = true -> truthy description = true ->
  answers w (List.length (sent w) + vision_calls (session w))
  = Response 200 text ->
  generation_document text = inr xml ->
  xml <> [] ->
  let w' := snd (on_generate_click test_name url description dom_html w) in
  generated_test (session w') = Some xml
  /\ validation_results (session w') = Some (validate_provar_test xml)
  /\ exists earlier,
       shown w'
       = earlier ++ [st_info_generating; st_info_validating;
                     st_success_generated; st_balloons].
Proof.
  intros Hn Hd Ha Hg Hne. cbv zeta.
  rewrite (PipelineFacts.click_steps _ url _ dom_html w Hn Hd). cbn [snd].
  pose proof (PageFacts.generation_answer w) as A. cbv zeta in A.
  rewrite Ha in A.
  set (w1 := snd (analysis_step w)) in *.
  erewrite PageFacts.generate_on_200; [|exact A|exact Hg].
  destruct xml as [|c x]; [contradiction|].
  cbn. repeat split.
  exists (shown w1). now rewrite <- app_assoc.
Qed.

Lemma successful_click_stores_validated_document_witness :
  let w' := snd (on_generate_click sample_name [] sample_description []
                                   (world_200 body_fenced_document)) in
  generated_test (session w') = Some earlier_document
  /\ validation_results (session w')
     = Some (validate_provar_test earlier_document)
  /\ exists earlier,
       shown w'
       = earlier ++ [st_info_generating; st_info_validating;
                     st_success_generated; st_balloons].
Proof.
  apply (successful_click_stores_validated_document
           sample_name [] sample_description []
           (world_200 body_fenced_document) body_fenced_document
           earlier_document).
  - reflexivity.
  - reflexivity.
  - reflexivity.
  - reflexivity.
  - discriminate.
Defined.

(** X17.  In a session that holds detected elements, files uploaded before a
    click are not analysed: the only request of the click is the generation
    request, with the elements held before, and these stay as they were. *)
Theorem new_upload_is_not_analysed
        (uploaded_files : list uploaded_file)
        (test_name url description dom_html : str) (w : world) :
  truthy test_name = true -> truthy description = true ->
  detected_elements (session w) <> [] ->
  let w1 := snd (process_uploads uploaded_files w) in
  let w2 := snd (on_generate_click test_name url description dom_html w1) in
  sent w2
  = sent w ++ [GenerationRequest test_name url description dom_html
                                 (detected_elements (session w))]
  /\ detected_elements (session w2) = detected_elements (session w).
Proof.
  intros Hn Hd He. cbv zeta.
  destruct (PageFacts.process_uploads_frame uploaded_files w)
    as (_ & D & _ & _ & S & _).
  set (w1 := snd (process_uploads uploaded_files w)) in *.
  rewrite (PipelineFacts.click_steps _ url _ dom_html w1 Hn Hd). cbn [snd].
  destruct (PipelineFacts.analysis_step_frame w1) as (_ & _ & _ & _ & _ & F).
  rewrite (F ltac:(now rewrite D)).
  match goal with |- context [generate_provar_test ?a ?b ?c ?d ?e ?wg] =>
    destruct (PipelineFacts.generate_frame a b c d e wg) as (Sg & _ & R & _);
    destruct (generate_provar_test a b c d e wg) as [r w3] end.
  cbn [fst snd session sent] in *.
  destruct r as [[|c x]|]; cbn [session sent detected_elements];
    rewrite ?Sg, R, D, S; split; reflexivity.
Qed.

Lemma new_upload_is_not_analysed_witness :
  let w1 := snd (process_uploads [good_upload] world_500) in
  let w2 := snd (on_generate_click sample_name [] sample_description []
                                   w1) in
  sent w2
  = sent world_500
      ++ [GenerationRequest sample_name [] sample_description []
                            (detected_elements (session world_500))]
  /\ detected_elements (session w2) = detected_elements (session world_500).
Proof.
  apply (new_upload_is_not_analysed [good_upload] sample_name []
                                    sample_description [] world_500).
  - reflexivity.
  - reflexivity.
  - discriminate.
Defined.

(** X18.  A run without files in the uploader leaves the session as it is,
    stored screenshots included.  A run with files replaces the stored
    screenshots by those of the files, in order, up to the first file that
    cannot be opened as an image, where the run ends. *)
Theorem uploads_replace_screenshots
        (uploaded_files : list uploaded_file) (w : world) :
  (uploaded_files = [] -> process_uploads uploaded_files w = (true, w))
  /\ (uploaded_files <> [] ->
      screenshots (session (snd (process_uploads uploaded_files w)))
      = map screenshot_of (opened_prefix uploaded_files)
      /\ fst (process_uploads uploaded_files w)
         = forallb upload_opens uploaded_files).
Proof.
  split.
  - intros ->. reflexivity.
  - intros Hne. unfold process_uploads.
    destruct uploaded_files as [|f files]; [contradiction|].
    cbn [truthy].
    change ((set_screenshots [] ;; append_screenshots (f :: files)) w)
      with (append_screenshots (f :: files)
              (mk_world (mk_session (generated_test (session w))
                                    (detected_elements (session w))
                                    (validation_results (session w)) [])
                        (answers w) (sent w) (shown w))).
    match goal with |- context [append_screenshots ?l ?w1] =>
      destruct (UploadFacts.append_screenshots_run l w1) as [S F] end.
    rewrite S, F. split; reflexivity.
Qed.

Lemma uploads_replace_screenshots_witness :
  process_uploads [] world_500 = (true, world_500)
  /\ screenshots
       (session (snd (process_uploads [good_upload; bad_upload; good_upload]
                                      world_500)))
     = map screenshot_of
           (opened_prefix [good_upload; bad_upload; good_upload])
  /\ fst (process_uploads [good_upload; bad_upload; good_upload] world_500)
     = forallb upload_opens [good_upload; bad_upload; good_upload].
Proof.
  split.
  - apply (proj1 (uploads_replace_screenshots [] world_500)). reflexivity.
  - apply (proj2 (uploads_replace_screenshots
                    [good_upload; bad_upload; good_upload] world_500)).
    discriminate.
Defined.

(** X19.  A click never changes the stored screenshots, posts at most one
    request per stored screenshot and one more, and only adds to the
    requests posted and to the detected elements. *)
Theorem click_only_adds (test_name url description dom_html : str)
        (w : world) :
  let w' := snd (on_generate_click test_name url description dom_html w) in
  screenshots (session w') = screenshots (session w)
  /\ (exists requests,
        sent w' = sent w ++ requests
        /\ List.length requests <= List.length (screenshots (session w)) + 1)
  /\ (exists elements,
        detected_elements (session w')
        = detected_elements (session w) ++ elements).
Proof.
  cbv zeta.
  destruct (truthy test_name) eqn:Hn; [destruct (truthy description) eqn:Hd|].
  - rewrite (PipelineFacts.click_steps _ url _ dom_html w Hn Hd). cbn [snd].
    destruct (PipelineFacts.analysis_step_frame w)
      as (_ & _ & _ & Sc & _ & F).
    destruct (OrchestratorFacts.analysis_step_run w _ eq_refl)
      as (_ & S1 & L1 & _ & _ & D1).
    fold (analysis_step w) in S1, L1, D1.
    set (w1 := snd (analysis_step w)) in *.
    assert (Hv : vision_calls (session w) <= List.length (screenshots (session w))).
    { unfold vision_calls. destruct (_ && _); lia. }
    assert (Hd1 : exists elements,
               detected_elements (session w1)
               = detected_elements (session w) ++ elements).
    { destruct (detected_elements (session w)) as [|e l] eqn:E.
      - now exists (detected_elements (session w1)).
      - exists []. rewrite (F ltac:(discriminate)), app_nil_r. exact E. }
    match goal with |- context [generate_provar_test ?a ?b ?c ?d ?e ?wg] =>
      destruct (PipelineFacts.generate_frame a b c d e wg) as (Sg & _ & R & _);
      destruct (generate_provar_test a b c d e wg) as [r w3] end.
    cbn [fst snd session sent] in *.
    assert (Hs : exists requests,
               sent w3 = sent w ++ requests
               /\ List.length requests
                  <= List.length (screenshots (session w)) + 1).
    { rewrite R, S1, <- app_assoc. eexists. split; [reflexivity|].
      rewrite length_app. cbn [List.length].
      assert (L : List.length (sent w1)
                  = List.length (sent w) + vision_calls (session w))
        by exact L1.
      rewrite S1, length_app in L. lia. }
    destruct r as [[|c x]|];
      cbn [session sent screenshots detected_elements];
      rewrite ?Sg; repeat split; assumption.
  - unfold on_generate_click. rewrite Hn, Hd. cbn.
    split; [reflexivity|].
    split; exists []; rewrite app_nil_r; [split; [reflexivity|cbn; lia]|reflexivity].
  - unfold on_generate_click. rewrite Hn. cbn.
    split; [reflexivity|].
    split; exists []; rewrite app_nil_r; [split; [reflexivity|cbn; lia]|reflexivity].
Qed.

(** X20.  The name of the downloaded file holds no space and is nine
    characters longer than the test name; for a test name without spaces it
    is the test name followed by [.testcase]. *)
Theorem download_name_has_no_space (test_name : str) :
  ~ In 32%N (download_file_name test_name)
  /\ List.length (download_file_name test_name) = List.length test_name + 9
  /\ (~ In 32%N test_name ->
      download_file_name test_name = test_name ++ py ".testcase").
Proof.
  unfold download_file_name, replace_char. repeat split.
  - rewrite in_app_iff. intros [H|H].
    + apply in_map_iff in H as (c & E & _).
      destruct (N.eqb_spec c 32); [discriminate|contradiction].
    + cbn in H. repeat (destruct H as [H|H]; [discriminate H|]). exact H.
  - rewrite length_app, length_map. reflexivity.
  - intros H. f_equal. induction test_name as [|c s IH]; [reflexivity|].
    cbn [map]. destruct (N.eqb_spec c 32) as [->|_].
    + exfalso. apply H. now left.
    + f_equal. apply IH. intros F. apply H. now right.
Qed.

Lemma download_name_has_no_space_witness :
  download_file_name sample_name = sample_name ++ py ".testcase".
Proof.
  apply (proj2 (proj2 (download_name_has_no_space sample_name))).
  vm_compute. intros H.
  repeat (destruct H as [H|H]; [discriminate H|]). exact H.
Defined.
